(** * graphqlgo: a low level GraphQL client over HTTP

    A shallow embedding of [graphqlgo.go] (package [graphqlgo]): the
    [Client] and [Request] records with their functional options, the wire
    envelopes [RequestBody] and [GraphQLResponse], and [Client.Run].

    The Go standard library is the program's environment.  What the program
    observes of it is embedded next to the program, each rule with the name of
    the library function it comes from:
    - encoding/json on values: struct tags, [null] for nil maps and pointers,
      sorted map keys, case-insensitive matching of object keys to fields,
      what is stored for each pair of JSON kind and Go kind, the first type
      error being the one returned;
    - net/http headers: [Header.Add], [Header.Set] and the canonical form of
      a header name.
    What the program only passes through is a parameter ([Runtime]): the text
    of a JSON document, URL parsing, the order in which [range] visits a map,
    and the HTTP round trip itself (the [httpClient] of a [Client]). *)

From Stdlib Require Import ZArith List Bool Ascii String Lia.
From Stdlib Require Import DecimalString DecimalZ DecimalPos.
From stdpp Require Import base option list gmap strings.

Set Warnings "-register-all,-clear-no-such-hyp".

Local Open Scope string_scope.
Local Open Scope list_scope.
Local Open Scope Z_scope.

(** ** JSON documents *)

Module Json.

(** A number literal.  [NInt n] is a literal with neither fraction nor
    exponent; [NDec m e] is any other literal, of value [m * 10^e]. *)
Inductive jnumber : Type :=
  | NInt (n : Z)
  | NDec (m : Z) (e : Z).

(** A JSON text up to white space and escapes: objects keep their members in
    the order written, repeated keys included. *)
Inductive json : Type :=
  | JNull
  | JBool (b : bool)
  | JNum (n : jnumber)
  | JStr (s : string)
  | JArr (items : list json)
  | JObj (members : list (string * json)).

(** strconv.ParseFloat(s, 64) reports a range error when the literal rounds
    to an infinity: from [2^1024 - 2^970] on, half an ulp above the largest
    float64.  A literal too small to represent rounds to zero without error. *)
Definition float64Limit : Z := 2 ^ 1024 - 2 ^ 970.

Definition overflowsFloat64 (n : jnumber) : bool :=
  match n with
  | NInt n => float64Limit <=? Z.abs n
  | NDec m e =>
      if 0 <=? e then float64Limit <=? Z.abs m * 10 ^ e
      else float64Limit * 10 ^ (- e) <=? Z.abs m
  end.

(** strconv.ParseInt(s, 10, 64) followed by [OverflowInt] for Go's [int]
    (64 bits): only a literal without fraction and exponent is accepted. *)
Definition parseInt (n : jnumber) : option Z :=
  match n with
  | NInt n => if (- 2 ^ 63 <=? n) && (n <? 2 ^ 63) then Some n else None
  | NDec _ _ => None
  end.

End Json.
Export Json.

(** ** Go values *)

(** [error] values.  [errorString] is what errors.New and fmt.Errorf build;
    [Wrap] is github.com/pkg/errors.Wrap; the others are encoding/json's. *)
Inductive error : Type :=
  | errorString (msg : string)
  | SyntaxError (msg : string)
  | UnmarshalTypeError (value : json) (goType : string)
  | UnsupportedTypeError
  | Wrap (cause : error) (msg : string).

(** The two results of a Go function returning [(T, error)]. *)
Inductive result (A : Type) : Type :=
  | Ok (a : A)
  | Err (e : error).
Arguments Ok {A} a.
Arguments Err {A} e.

(** A value held in an [interface{}].  [GNil] is the nil interface and also a
    nil pointer, map or slice inside one: encoding/json writes [null] for all
    of them.  [GFloat64 x] is the float64 nearest to the literal [x], a
    literal within the range of float64: the infinities and NaN are not among
    these values.  [GString s] is a string of valid UTF-8.  [GOpaque] is a
    value of a kind that encoding/json refuses (chan, func, complex). *)
Inductive govalue : Type :=
  | GNil
  | GBool (b : bool)
  | GInt (n : Z)
  | GFloat64 (x : jnumber)
  | GString (s : string)
  | GSlice (items : list govalue)
  | GMap (entries : list (string * govalue))
  | GOpaque.

(** A Go map with string keys, as an association list kept sorted by key
    with one entry per key: two equal maps have one representation. *)
Module GoMap.

(** m[k] = v *)
Fixpoint store {A : Type} (k : string) (v : A) (m : list (string * A))
  : list (string * A) :=
  match m with
  | [] => [(k, v)]
  | (k', v') :: rest =>
      match String.compare k k' with
      | Lt => (k, v) :: m
      | Eq => (k, v) :: rest
      | Gt => (k', v') :: store k v rest
      end
  end.

(** v, ok := m[k] *)
Fixpoint lookup {A : Type} (k : string) (m : list (string * A)) : option A :=
  match m with
  | [] => None
  | (k', v') :: rest => if String.eqb k k' then Some v' else lookup k rest
  end.

(** The entries of [m] stored one after the other into an empty map: in
    increasing key order, the order in which encoding/json writes a map. *)
Definition sorted {A : Type} (m : list (string * A)) : list (string * A) :=
  fold_left (fun acc kv => store (fst kv) (snd kv) acc) m [].

End GoMap.

(** map[string]interface{} *)
Abbreviation gomap := (list (string * govalue)).

(** ** encoding/json: Marshal *)

Module Encode.

(** [Marshal] of a value held in an interface; [None] is an
    UnsupportedTypeError.  A string is written as it is, which is what
    encoding/json does with valid UTF-8 (for a byte outside a valid encoding
    it writes U+FFFD), and a float64 as its literal, which is what it does
    with a finite one (an infinity or NaN it refuses). *)
Fixpoint marshal (v : govalue) : option json :=
  match v with
  | GNil => Some JNull
  | GBool b => Some (JBool b)
  | GInt n => Some (JNum (NInt n))
  | GFloat64 x => Some (JNum x)
  | GString s => Some (JStr s)
  | GSlice items =>
      let fix each (l : list govalue) : option (list json) :=
        match l with
        | [] => Some []
        | x :: l' =>
            match marshal x, each l' with
            | Some j, Some js => Some (j :: js)
            | _, _ => None
            end
        end in
      match each items with
      | Some js => Some (JArr js)
      | None => None
      end
  | GMap entries =>
      let fix each (l : gomap) : option (list (string * json)) :=
        match l with
        | [] => Some []
        | (k, x) :: l' =>
            match marshal x, each l' with
            | Some j, Some js => Some ((k, j) :: js)
            | _, _ => None
            end
        end in
      match each entries with
      | Some js => Some (JObj (GoMap.sorted js))
      | None => None
      end
  | GOpaque => None
  end.

(** A struct field as encoding/json sees it: the name given by the tag and
    whether the tag says [omitempty]. *)
Record field : Type := Field { name : string; omitempty : bool }.

(** isEmptyValue: false, 0, a nil pointer or interface, an empty string,
    slice or map. *)
Definition isEmptyValue (v : govalue) : bool :=
  match v with
  | GNil | GBool false | GInt 0 | GString EmptyString | GSlice [] | GMap [] => true
  | _ => false
  end.

(** The members written for a struct: one per field in declaration order,
    a field being left out only when it is tagged [omitempty] and empty. *)
Fixpoint marshalFields (fs : list (field * govalue))
  : option (list (string * json)) :=
  match fs with
  | [] => Some []
  | (f, v) :: rest =>
      if omitempty f && isEmptyValue v then marshalFields rest
      else
        match marshal v, marshalFields rest with
        | Some j, Some js => Some ((name f, j) :: js)
        | _, _ => None
        end
  end.

Definition marshalStruct (fs : list (field * govalue)) : result json :=
  match marshalFields fs with
  | Some ms => Ok (JObj ms)
  | None => Err UnsupportedTypeError
  end.

End Encode.

(** ** encoding/json: Unmarshal *)

Module Decode.

(** saveError: the decoder goes on after a type error and returns the first
    one it met. *)
Definition saveError (saved next : option error) : option error :=
  match saved with
  | Some _ => saved
  | None => next
  end.

(** *** Object keys and struct fields *)

Definition toUpper (c : ascii) : ascii :=
  let n := N_of_ascii c in
  if ((97 <=? n) && (n <=? 122))%N then ascii_of_N (n - 32) else c.

(** foldName: ASCII letters to upper case; the long s (U+017F, bytes C5 BF)
    and the Kelvin sign (U+212A, bytes E2 84 AA) to [S] and [K], the least
    runes of their fold sets.  Other runes are left as they are: no other
    rune folds to an ASCII letter, and the tags of this package are ASCII. *)
Fixpoint foldName (s : string) : string :=
  match s with
  | EmptyString => EmptyString
  | String c rest =>
      match rest with
      | String c2 rest2 =>
          if ((N_of_ascii c =? 197) && (N_of_ascii c2 =? 191))%N
          then String "S" (foldName rest2)
          else
            match rest2 with
            | String c3 rest3 =>
                if ((N_of_ascii c =? 226) && (N_of_ascii c2 =? 132)
                    && (N_of_ascii c3 =? 170))%N
                then String "K" (foldName rest3)
                else String (toUpper c) (foldName rest)
            | EmptyString => String (toUpper c) (foldName rest)
            end
      | EmptyString => String (toUpper c) EmptyString
      end
  end.

Fixpoint indexOf (p : string -> bool) (names : list string) : option nat :=
  match names with
  | [] => None
  | n :: rest => if p n then Some O else S <$> indexOf p rest
  end.

(** The field an object key is stored in: the field whose tag is the key,
    else the first field whose tag equals the key up to case; no field,
    and the member is skipped. *)
Definition matchField (tags : list string) (key : string) : option nat :=
  match indexOf (String.eqb key) tags with
  | Some i => Some i
  | None => indexOf (fun tag => String.eqb (foldName tag) (foldName key)) tags
  end.

(** The members of an object stored one after the other, in the order
    written, each into the field [matchField] gives it. *)
Fixpoint decodeMembers {S : Type} (tags : list string)
    (storeField : nat -> json -> S -> S * option error)
    (members : list (string * json)) (s : S) : S * option error :=
  match members with
  | [] => (s, None)
  | (key, j) :: rest =>
      match matchField tags key with
      | Some i =>
          let '(s1, e1) := storeField i j s in
          let '(s2, e2) := decodeMembers tags storeField rest s1 in
          (s2, saveError e1 e2)
      | None => decodeMembers tags storeField rest s
      end
  end.

(** A JSON value stored into a struct: an object member by member, [null]
    nothing, anything else a type error. *)
Definition decodeStruct {S : Type} (goType : string) (tags : list string)
    (storeField : nat -> json -> S -> S * option error)
    (j : json) (s : S) : S * option error :=
  match j with
  | JObj members => decodeMembers tags storeField members s
  | JNull => (s, None)
  | _ => (s, Some (UnmarshalTypeError j goType))
  end.

(** *** Into an interface{} *)

(** valueInterface: the Go value built for a JSON value.  A number out of
    the float64 range is a type error and leaves nil in its place. *)
Fixpoint toInterface (j : json) : govalue * option error :=
  match j with
  | JNull => (GNil, None)
  | JBool b => (GBool b, None)
  | JNum n =>
      if overflowsFloat64 n then (GNil, Some (UnmarshalTypeError j "float64"))
      else (GFloat64 n, None)
  | JStr s => (GString s, None)
  | JArr items =>
      let fix each (l : list json) : list govalue * option error :=
        match l with
        | [] => ([], None)
        | x :: l' =>
            let '(v, e1) := toInterface x in
            let '(vs, e2) := each l' in
            (v :: vs, saveError e1 e2)
        end in
      let '(vs, e) := each items in (GSlice vs, e)
  | JObj members =>
      let fix each (l : list (string * json)) (m : gomap)
        : gomap * option error :=
        match l with
        | [] => (m, None)
        | (k, x) :: l' =>
            let '(v, e1) := toInterface x in
            let '(m', e2) := each l' (GoMap.store k v m) in
            (m', saveError e1 e2)
        end in
      let '(m, e) := each members [] in (GMap m, e)
  end.

(** A JSON value stored into a variable of type interface{} that holds no
    pointer: the variable is replaced by [toInterface], except that a number
    out of range leaves it as it was. *)
Definition storeInterface (j : json) (old : govalue) : govalue * option error :=
  match j with
  | JNum n =>
      if overflowsFloat64 n then (old, Some (UnmarshalTypeError j "float64"))
      else (GFloat64 n, None)
  | _ => toInterface j
  end.

(** *** Into the basic kinds *)

Definition storeString (j : json) (old : string) : string * option error :=
  match j with
  | JStr s => (s, None)
  | JNull => (old, None)
  | _ => (old, Some (UnmarshalTypeError j "string"))
  end.

Definition storeInt (j : json) (old : Z) : Z * option error :=
  match j with
  | JNum n =>
      match parseInt n with
      | Some z => (z, None)
      | None => (old, Some (UnmarshalTypeError j "int"))
      end
  | JNull => (old, None)
  | _ => (old, Some (UnmarshalTypeError j "int"))
  end.

(** *** Slices *)

(** A slice: nil, or the elements up to its length followed by the elements
    its backing array holds past the length (up to the capacity). *)
Inductive slice (A : Type) : Type :=
  | nilSlice
  | Slice (elems : list A) (spare : list A).
Arguments nilSlice {A}.
Arguments Slice {A} elems spare.

Definition elements {A : Type} (s : slice A) : list A :=
  match s with
  | nilSlice => []
  | Slice elems _ => elems
  end.

Definition backing {A : Type} (s : slice A) : list A :=
  match s with
  | nilSlice => []
  | Slice elems spare => elems ++ spare
  end.

(** len(s) *)
Definition len {A : Type} (s : slice A) : nat := length (elements s).

(** The items of a JSON array stored one after the other: item [i] into
    element [i] of the backing array, as that element is, or into a zero
    element once the array is used up. *)
Fixpoint decodeItems {A : Type} (zero : A)
    (storeElem : json -> A -> A * option error)
    (items : list json) (old : list A) : list A * option error :=
  match items with
  | [] => ([], None)
  | j :: rest =>
      let '(x, e1) := storeElem j (hd zero old) in
      let '(xs, e2) := decodeItems zero storeElem rest (tl old) in
      (x :: xs, saveError e1 e2)
  end.

(** A JSON value stored into a slice: an array item by item, the length set
    to the number of items (an empty array gives a new empty slice, not
    nil); [null] gives nil; anything else is a type error. *)
Definition decodeSlice {A : Type} (goType : string) (zero : A)
    (storeElem : json -> A -> A * option error)
    (j : json) (s : slice A) : slice A * option error :=
  match j with
  | JArr [] => (Slice [] [], None)
  | JArr items =>
      let '(xs, e) := decodeItems zero storeElem items (backing s) in
      (Slice xs (skipn (length items) (backing s)), e)
  | JNull => (nilSlice, None)
  | _ => (s, Some (UnmarshalTypeError j goType))
  end.

(** *** map[string]interface{} *)

Fixpoint storeEntries (members : list (string * json)) (m : gomap)
  : gomap * option error :=
  match members with
  | [] => (m, None)
  | (k, j) :: rest =>
      let '(v, e1) := storeInterface j GNil in
      let '(m', e2) := storeEntries rest (GoMap.store k v m) in
      (m', saveError e1 e2)
  end.

(** A JSON value stored into a map[string]interface{} ([None] is the nil
    map): the members of an object are added to the entries there, a new
    map being made for a nil one; [null] gives nil. *)
Definition decodeMap (j : json) (m : option gomap) : option gomap * option error :=
  match j with
  | JObj members =>
      let '(m', e) := storeEntries members (default [] m) in (Some m', e)
  | JNull => (None, None)
  | _ => (m, Some (UnmarshalTypeError j "map[string]interface {}"))
  end.

(** *** The caller's target *)

(** A Go type that the caller can pass a pointer to as the target of the
    response data: [unmarshal j t] is what the decoder leaves in a variable
    holding [t] when it stores the JSON value [j], not [null], into it.
    [nilPointer] tells the kind of the type, which decides where [indirect]
    stops for [null]: it is the nil pointer for a pointer type, and [None]
    for a type of any other kind. *)
Class Unmarshal (T : Type) : Type := {
  unmarshal : json -> T -> T * option error;
  nilPointer : option T
}.

(** [var t interface{}], passed as [&t]. *)
#[export] Instance unmarshal_interface : Unmarshal govalue :=
  {| unmarshal := storeInterface; nilPointer := None |}.

(** [var t struct{}]: every member of an object is skipped. *)
#[export] Instance unmarshal_empty_struct : Unmarshal unit :=
  {| unmarshal := decodeStruct "struct {}" [] (fun _ _ s => (s, None));
     nilPointer := None |}.

Fixpoint storeStrings (members : list (string * json)) (m : gmap string string)
  : gmap string string * option error :=
  match members with
  | [] => (m, None)
  | (k, j) :: rest =>
      let '(v, e1) := storeString j EmptyString in
      let '(m', e2) := storeStrings rest (<[k := v]> m) in
      (m', saveError e1 e2)
  end.

(** [var t map[string]string] ([None] is the nil map), the target of the
    package's tests.  A member that is not a string is a type error and
    leaves the empty string under its key. *)
#[export] Instance unmarshal_string_map : Unmarshal (option (gmap string string)) :=
  {| unmarshal := fun j m =>
       match j with
       | JObj members =>
           let '(m', e) := storeStrings members (default ∅ m) in (Some m', e)
       | JNull => (None, None)
       | _ => (m, Some (UnmarshalTypeError j "map[string]string"))
       end;
     nilPointer := None |}.

(** A variable of a pointer type [*S]: nil, or a pointer to a variable
    holding [s]. *)
Inductive pointer (S : Type) : Type :=
  | NilPointer
  | PointerTo (s : S).
Arguments NilPointer {S}.
Arguments PointerTo {S} s.

(** [var p *S], passed as [&p]: [indirect] follows [p] to the variable it
    points to, which it makes, with the zero value of [S], when [p] is nil;
    [null] sets [p] to nil. *)
Definition unmarshalPointer {S : Type} `{Unmarshal S} (zero : S)
  : Unmarshal (pointer S) :=
  {| unmarshal := fun j p =>
       match j with
       | JNull => (NilPointer, None)
       | _ =>
           let s := match p with PointerTo s => s | NilPointer => zero end in
           let '(s', e) := unmarshal j s in (PointerTo s', e)
       end;
     nilPointer := Some NilPointer |}.

(** [var p *map[string]string], passed as [&p]. *)
#[export] Instance unmarshal_string_map_pointer
  : Unmarshal (pointer (option (gmap string string))) | 10 :=
  unmarshalPointer None.

End Decode.
Export (hints) Decode.

(** ** net/http: headers *)

(** http.Header is map[string][]string. *)
Abbreviation http_Header := (gmap string (list string)).

Module HTTPHeader.

Definition isAlpha (n : N) : bool :=
  (((65 <=? n) && (n <=? 90)) || ((97 <=? n) && (n <=? 122)))%N.

Definition isDigit (n : N) : bool := ((48 <=? n) && (n <=? 57))%N.

(** validHeaderFieldByte: the token characters of RFC 7230. *)
Definition validHeaderFieldByte (c : ascii) : bool :=
  let n := N_of_ascii c in
  isAlpha n || isDigit n
  || existsb (Ascii.eqb c)
       ["!"; "#"; "$"; "%"; "&"; "'"; "*"; "+"; "-"; "."; "^"; "_"; "`"; "|"; "~"]%char.

Definition toLower (c : ascii) : ascii :=
  let n := N_of_ascii c in
  if ((65 <=? n) && (n <=? 90))%N then ascii_of_N (n + 32) else c.

(** The second loop of canonicalMIMEHeaderKey: upper case for the first
    letter and for a letter after a dash, lower case for the other letters. *)
Fixpoint canonical (upper : bool) (s : string) : string :=
  match s with
  | EmptyString => EmptyString
  | String c rest =>
      let c' := if upper then Decode.toUpper c else toLower c in
      String c' (canonical (Ascii.eqb c' "-") rest)
  end.

(** textproto.CanonicalMIMEHeaderKey: a name with a byte that is not a token
    character (a space included) is returned as it is. *)
Definition CanonicalMIMEHeaderKey (s : string) : string :=
  if forallb validHeaderFieldByte (list_ascii_of_string s)
  then canonical true s
  else s.

(** h.Add(key, value): appends to the values under the canonical key. *)
Definition Add (key value : string) (h : http_Header) : http_Header :=
  let k := CanonicalMIMEHeaderKey key in
  <[k := default [] (h !! k) ++ [value]]> h.

(** h.Set(key, value): replaces the values under the canonical key. *)
Definition Set_ (key value : string) (h : http_Header) : http_Header :=
  <[CanonicalMIMEHeaderKey key := [value]]> h.

(** h.Values(key): the values under the canonical key, none for a key that
    is not there. *)
Definition Values (key : string) (h : http_Header) : list string :=
  default [] (h !! CanonicalMIMEHeaderKey key).

(** for _, value := range values { h.Add(key, value) } *)
Definition addValues (key : string) (values : list string) (h : http_Header) : http_Header :=
  fold_left (fun h value => Add key value h) values h.

(** for key, values := range src { for _, value := range values
    { h.Add(key, value) } }, the entries of [src] visited in the order
    [entries]. *)
Definition addEntries (entries : list (string * list string)) (h : http_Header) : http_Header :=
  fold_left (fun h kv => addValues (fst kv) (snd kv) h) entries h.

End HTTPHeader.

(** ** The package *)

(** context.Context as [Run] reads it on entry: either [Done] is still open
    and [Err] is nil, or it is closed and [Err] gives the error. *)
Inductive Context : Type :=
  | Live
  | Finished (err : error).

(** *http.Request, as built by [Run]. *)
Record HTTPRequest : Type := mkHTTPRequest {
  Method : string;
  URL : string;
  Body : json;
  httpHeader : http_Header;
  Close : bool;
  ReqContext : option Context
}.

(** *http.Response.  [ResBody] is what reading the body to its end gives:
    the text, or the error of the read that failed. *)
Record HTTPResponse : Type := mkHTTPResponse {
  StatusCode : Z;
  resHeader : http_Header;
  ContentLength : Z;
  ResBody : result string
}.

(** *http.Client: [Do], one round trip. *)
Abbreviation HTTPClient := (HTTPRequest -> result HTTPResponse).

(** What [Run] takes from the standard library without looking into it. *)
Record Runtime : Type := mkRuntime {
  (** json.Decoder.Decode reading the first JSON value of a text: the value,
      or the error for a text that has none (a syntax error, io.EOF). *)
  scanJSON : string -> result json;
  (** url.Parse inside http.NewRequest: the error for an endpoint it
      refuses. *)
  parseURL : string -> option error;
  (** [range] over a header map: the entries of the map in some order. *)
  rangeHeader : http_Header -> list (string * list string);
  rangeHeader_perm : forall h : http_Header, rangeHeader h ≡ₚ map_to_list h;
  (** http.DefaultClient *)
  DefaultClient : HTTPClient
}.

(** RequestBody reflect the structure of GraphQL Request *)
Record RequestBody : Type := mkRequestBody {
  Query : string;                 (* `json:"query"` *)
  Variables : option gomap;       (* `json:"variables"`, [None] the nil map *)
  OperationName : option string   (* `json:"operationName"`, [None] the nil pointer *)
}.

(** A value stored in [InspectRun]. *)
Inductive inspectValue : Type :=
  | VRequestBody (b : RequestBody)
  | VHeader (h : http_Header)
  | VInt (n : Z)
  | VCookies (h : http_Header)   (* res.Cookies(): read from the Set-Cookie lines of [h] *)
  | VString (s : string).

(** InspectData provides info about request and response *)
Abbreviation InspectData := (gmap string inspectValue).

(** Client is a client for interacting with a GraphQL API.  [httpClient] and
    [InspectRun] are [None] when nil. *)
Record Client : Type := mkClient {
  Endpoint : string;
  httpClient : option HTTPClient;
  Header : http_Header;
  closeReq : bool;
  InspectRun : option InspectData
}.

Record Location : Type := mkLocation {
  Line : Z;     (* `json:"Line"` *)
  Column : Z    (* `json:"Column"` *)
}.

(** GraphQLError comply with specs *)
Record GraphQLError : Type := mkGraphQLError {
  Message : string;                        (* `json:"message"` *)
  Locations : Decode.slice Location;       (* `json:"locations"` *)
  Path : Decode.slice govalue;             (* `json:"path"` *)
  Extensions : option gomap                (* `json:"extensions"` *)
}.

(** The [Data] field of a [GraphQLResponse], an interface{}: it holds the
    pointer that [Run] was given, or a value that is no pointer. *)
Inductive dataField : Type :=
  | DataPointer
  | DataValue (v : govalue).

(** GraphQLResponse describes GraphQL response *)
Record GraphQLResponse : Type := mkGraphQLResponse {
  Data : dataField;                        (* `json:"data"` *)
  Errors : Decode.slice GraphQLError       (* `json:"errors"` *)
}.

(** Request is a GraphQL request. *)
Record Request : Type := mkRequest {
  q : string;
  vars : option gomap;
  opName : option string;
  reqHeader : http_Header
}.

(** ClientOption are functions that are passed into NewClient to modify the
    behaviour of the Client. *)
Abbreviation ClientOption := (Client -> Client).

(** RequestOption is a functional option *)
Abbreviation RequestOption := (Request -> Request).

(** *** Field updates *)

Definition setHTTPClient (h : option HTTPClient) (c : Client) : Client :=
  mkClient (Endpoint c) h (Header c) (closeReq c) (InspectRun c).

Definition setHeader (h : http_Header) (c : Client) : Client :=
  mkClient (Endpoint c) (httpClient c) h (closeReq c) (InspectRun c).

Definition setCloseReq (b : bool) (c : Client) : Client :=
  mkClient (Endpoint c) (httpClient c) (Header c) b (InspectRun c).

Definition setInspectRun (i : option InspectData) (c : Client) : Client :=
  mkClient (Endpoint c) (httpClient c) (Header c) (closeReq c) i.

(** c.InspectRun[key] = v.  [Run] only writes into the map it has just made;
    writing into a nil map panics, which [Run] cannot reach. *)
Definition inspect (key : string) (v : inspectValue) (c : Client) : Client :=
  setInspectRun (Some (<[key := v]> (default ∅ (InspectRun c)))) c.

Definition setVars (v : option gomap) (r : Request) : Request :=
  mkRequest (q r) v (opName r) (reqHeader r).

Definition setOpName (o : option string) (r : Request) : Request :=
  mkRequest (q r) (vars r) o (reqHeader r).

Definition setRequestHeader (h : http_Header) (r : Request) : Request :=
  mkRequest (q r) (vars r) (opName r) h.

(** *** Construction and options *)

(** WithHTTPClient specifies the underlying http.Client to use when making
    requests. *)
Definition WithHTTPClient (httpclient : option HTTPClient) : ClientOption :=
  fun client => setHTTPClient httpclient client.

(** WithHeaders specifies headers to use with every request.  These headers
    are Added not Set. *)
Definition WithHeaders (rt : Runtime) (headers : http_Header) : ClientOption :=
  fun client =>
    setHeader (HTTPHeader.addEntries (rangeHeader rt headers) (Header client)) client.

(** ImmediatelyCloseReqBody will close the req body immediately after each
    request body is ready *)
Definition ImmediatelyCloseReqBody : ClientOption :=
  fun client => setCloseReq true client.

(** NewClient makes a new Client capable of making GraphQL requests. *)
Definition NewClient (rt : Runtime) (endpoint : string) (opts : list ClientOption)
  : Client :=
  let c := mkClient endpoint None ∅ false None in
  let c := setHeader (HTTPHeader.Set_ "Content-Type" "application/json; charset=utf-8" (Header c)) c in
  let c := setHeader (HTTPHeader.Set_ "Accept" "application/json; charset=utf-8" (Header c)) c in
  let c := fold_left (fun c optFn => optFn c) opts c in
  match httpClient c with
  | None => setHTTPClient (Some (DefaultClient rt)) c
  | Some _ => c
  end.

(** WithVars allows to specify variables for the request *)
Definition WithVars (vars : option gomap) : RequestOption :=
  fun r => setVars vars r.

(** WithOperationName allows to specify request's operation name *)
Definition WithOperationName (s : string) : RequestOption :=
  fun r => if negb (String.eqb s EmptyString) then setOpName (Some s) r else r.

(** NewRequest makes a new Request with the specified string. *)
Definition NewRequest (q : string) (opts : list RequestOption) : Request :=
  let req := mkRequest q None None ∅ in
  fold_left (fun req optFn => optFn req) opts req.

(** Vars sets a variables for the request *)
Definition Vars (v : option gomap) (req : Request) : Request :=
  let req := match vars req with
             | None => setVars (Some []) req
             | Some _ => req
             end in
  setVars v req.

(** *** Decoding the response envelope *)

Definition zeroLocation : Location := mkLocation 0 0.

Definition zeroGraphQLError : GraphQLError :=
  mkGraphQLError EmptyString Decode.nilSlice Decode.nilSlice None.

(** The tags of the element type of [GraphQLError.Locations]. *)
Definition locationTags : list string := ["Line"; "Column"].

(** The tags of [GraphQLError]. *)
Definition graphQLErrorTags : list string :=
  ["message"; "locations"; "path"; "extensions"].

(** The tags of [GraphQLResponse]. *)
Definition graphQLResponseTags : list string := ["data"; "errors"].

Definition storeLocationField (i : nat) (j : json) (l : Location)
  : Location * option error :=
  match i with
  | 0%nat => let '(n, e) := Decode.storeInt j (Line l) in (mkLocation n (Column l), e)
  | 1%nat => let '(n, e) := Decode.storeInt j (Column l) in (mkLocation (Line l) n, e)
  | _ => (l, None)
  end.

(** strconv.Quote of a text of printable ASCII characters: the text between
    double quotes, each double quote and backslash of it after a backslash. *)
Fixpoint escapeQuotes (s : string) : string :=
  match s with
  | EmptyString => EmptyString
  | String c rest =>
      if ((N_of_ascii c =? 34) || (N_of_ascii c =? 92))%N
      then String (ascii_of_N 92) (String c (escapeQuotes rest))
      else String c (escapeQuotes rest)
  end.

Definition strconvQuote (s : string) : string :=
  String (ascii_of_N 34) (escapeQuotes s +:+ String (ascii_of_N 34) EmptyString).

(** The struct tag that names a field for encoding/json: json, a colon and
    the name between double quotes. *)
Definition jsonTag (name : string) : string :=
  "json:" +:+ String (ascii_of_N 34) (name +:+ String (ascii_of_N 34) EmptyString).

(** The element type of [GraphQLError.Locations] as reflect prints it in a
    type error: the anonymous struct, each field with its tag quoted. *)
Definition locationType : string :=
  "struct { Line int " +:+ strconvQuote (jsonTag "Line")
  +:+ "; Column int " +:+ strconvQuote (jsonTag "Column") +:+ " }".

Definition decodeLocation : json -> Location -> Location * option error :=
  Decode.decodeStruct locationType locationTags storeLocationField.

Definition storeGraphQLErrorField (i : nat) (j : json) (g : GraphQLError)
  : GraphQLError * option error :=
  match i with
  | 0%nat =>
      let '(s, e) := Decode.storeString j (Message g) in
      (mkGraphQLError s (Locations g) (Path g) (Extensions g), e)
  | 1%nat =>
      let '(l, e) :=
        Decode.decodeSlice ("[]" +:+ locationType) zeroLocation
          decodeLocation j (Locations g) in
      (mkGraphQLError (Message g) l (Path g) (Extensions g), e)
  | 2%nat =>
      let '(p, e) :=
        Decode.decodeSlice "[]interface {}" GNil Decode.storeInterface j (Path g) in
      (mkGraphQLError (Message g) (Locations g) p (Extensions g), e)
  | 3%nat =>
      let '(x, e) := Decode.decodeMap j (Extensions g) in
      (mkGraphQLError (Message g) (Locations g) (Path g) x, e)
  | _ => (g, None)
  end.

Definition decodeGraphQLError
  : json -> GraphQLError -> GraphQLError * option error :=
  Decode.decodeStruct "graphqlgo.GraphQLError" graphQLErrorTags
    storeGraphQLErrorField.

(** What decoding the envelope works on: the [GraphQLResponse] and the
    variable that the pointer given to [Run] points to, if one was given. *)
Record decodeState (T : Type) : Type := mkDecodeState {
  gr : GraphQLResponse;
  pointee : option T
}.
Arguments mkDecodeState {T} gr pointee.
Arguments gr {T} d.
Arguments pointee {T} d.

(** A JSON value stored into the field [Data].  While the field holds the
    caller's pointer the value goes into the variable pointed to.  For
    [null], [indirect] follows the pointer only to a variable that is itself
    a pointer, which is then set to nil; for a variable of any other kind
    [null] sets the field itself to nil and leaves the variable alone.  A
    field that holds no pointer is replaced by the value. *)
Definition storeData {T : Type} `{Decode.Unmarshal T} (j : json)
    (d : decodeState T) : decodeState T * option error :=
  match Data (gr d), pointee d with
  | DataPointer, Some t =>
      match j with
      | JNull =>
          match Decode.nilPointer with
          | Some p => (mkDecodeState (gr d) (Some p), None)
          | None =>
              (mkDecodeState (mkGraphQLResponse (DataValue GNil) (Errors (gr d)))
                 (pointee d), None)
          end
      | _ =>
          let '(t', e) := Decode.unmarshal j t in
          (mkDecodeState (gr d) (Some t'), e)
      end
  | DataPointer, None =>
      let '(v, e) := Decode.storeInterface j GNil in
      (mkDecodeState (mkGraphQLResponse (DataValue v) (Errors (gr d))) (pointee d), e)
  | DataValue old, _ =>
      let '(v, e) := Decode.storeInterface j old in
      (mkDecodeState (mkGraphQLResponse (DataValue v) (Errors (gr d))) (pointee d), e)
  end.

Definition storeGraphQLResponseField {T : Type} `{Decode.Unmarshal T}
    (i : nat) (j : json) (d : decodeState T) : decodeState T * option error :=
  match i with
  | 0%nat => storeData j d
  | 1%nat =>
      let '(errs, e) :=
        Decode.decodeSlice "[]graphqlgo.GraphQLError" zeroGraphQLError
          decodeGraphQLError j (Errors (gr d)) in
      (mkDecodeState (mkGraphQLResponse (Data (gr d)) errs) (pointee d), e)
  | _ => (d, None)
  end.

(** json.NewDecoder(&buf).Decode(&gr), on the JSON value read from the
    buffer. *)
Definition decodeGraphQLResponse {T : Type} `{Decode.Unmarshal T}
  : json -> decodeState T -> decodeState T * option error :=
  Decode.decodeStruct "graphqlgo.GraphQLResponse" graphQLResponseTags
    storeGraphQLResponseField.

(** *** Run *)

(** %v of an int *)
Definition formatInt (n : Z) : string := NilZero.string_of_int (Z.to_int n).

(** fmt.Errorf("HTTP Error %v: graphql server returned a non-200 status
    code", code) *)
Definition httpStatusError (code : Z) : error :=
  errorString ("HTTP Error " +:+ formatInt code
               +:+ ": graphql server returned a non-200 status code").

(** http.StatusOK *)
Definition StatusOK : Z := 200.

(** The fields of a [RequestBody] with their tags, as encoding/json reads
    the struct. *)
Definition requestBodyFields (b : RequestBody) : list (Encode.field * govalue) :=
  [ (Encode.Field "query" false, GString (Query b));
    (Encode.Field "variables" false,
       match Variables b with Some m => GMap m | None => GNil end);
    (Encode.Field "operationName" false,
       match OperationName b with Some s => GString s | None => GNil end) ].

(** json.NewEncoder(&requestBody).Encode(requestBodyObj) *)
Definition encodeRequestBody (b : RequestBody) : result json :=
  Encode.marshalStruct (requestBodyFields b).

(** http.NewRequest(http.MethodPost, endpoint, &requestBody): a request with
    an empty header set, or the error of url.Parse. *)
Definition NewHTTPRequest (rt : Runtime) (endpoint : string) (body : json)
  : result HTTPRequest :=
  match parseURL rt endpoint with
  | Some e => Err e
  | None => Ok (mkHTTPRequest "POST" endpoint body ∅ false None)
  end.

(** The two loops of [Run] that add the client's headers and then the
    request's headers to the header set of the outgoing request. *)
Definition mergeHeaders (rt : Runtime) (c : Client) (req : Request)
    (h : http_Header) : http_Header :=
  let h := HTTPHeader.addEntries (rangeHeader rt (Header c)) h in
  HTTPHeader.addEntries (rangeHeader rt (reqHeader req)) h.

(** Lines 153-174 of [Run] without the entry into [InspectRun]: the POST
    request to the endpoint with the encoded body, [Close] set from the
    client, the merged headers, and the context bound to it. *)
Definition outgoingRequest (rt : Runtime) (ctx : Context) (c : Client)
    (req : Request) (requestBody : json) : result HTTPRequest :=
  match NewHTTPRequest rt (Endpoint c) requestBody with
  | Err err => Err err
  | Ok r =>
      Ok (mkHTTPRequest (Method r) (URL r) (Body r)
            (mergeHeaders rt c req (httpHeader r)) (closeReq c) (Some ctx))
  end.

(** var gr GraphQLResponse; gr.Data = resp *)
Definition injectTarget {T : Type} (resp : option T) : decodeState T :=
  mkDecodeState
    (mkGraphQLResponse
       (match resp with Some _ => DataPointer | None => DataValue GNil end)
       Decode.nilSlice)
    resp.

(** json.NewDecoder(&buf).Decode(&gr): the first JSON value of the buffer is
    read, which fails on a text that has none, and then stored into [gr]. *)
Definition decodeBody {T : Type} `{Decode.Unmarshal T} (rt : Runtime)
    (buf : string) (resp : option T) : decodeState T * option error :=
  match scanJSON rt buf with
  | Err err => (injectTarget resp, Some err)
  | Ok j => decodeGraphQLResponse j (injectTarget resp)
  end.

(** How a call of [Run] ends: with its two results ([nilSlice] and [None]
    are nil), or in the panic of a call through a nil [httpClient]. *)
Inductive outcome : Type :=
  | Return (errs : Decode.slice GraphQLError) (err : option error)
  | Panic.

(** A call of [Run]: the client, the request and the variable behind the
    response pointer as the call leaves them, the requests it handed to
    [httpClient.Do], and how it ended. *)
Record RunResult (T : Type) : Type := mkRunResult {
  client : Client;
  request : Request;
  target : option T;
  sent : list HTTPRequest;
  returned : outcome
}.
Arguments mkRunResult {T} client request target sent returned.
Arguments client {T} r.
Arguments request {T} r.
Arguments target {T} r.
Arguments sent {T} r.
Arguments returned {T} r.

(** Run executes the query and unmarshals the response from the data field
    into the response object.  [resp] is [None] for a nil response object
    and [Some t] for a pointer to a variable holding [t]. *)
Definition Run {T : Type} `{Decode.Unmarshal T} (rt : Runtime) (ctx : Context)
    (c : Client) (req : Request) (resp : option T) : RunResult T :=
  match ctx with
  | Finished err => mkRunResult c req resp [] (Return Decode.nilSlice (Some err))
  | Live =>
      let c := setInspectRun (Some ∅) c in
      let requestBodyObj := mkRequestBody (q req) (vars req) (opName req) in
      let c := inspect "ReqBody" (VRequestBody requestBodyObj) c in
      match encodeRequestBody requestBodyObj with
      | Err err =>
          mkRunResult c req resp []
            (Return Decode.nilSlice (Some (Wrap err "encode body")))
      | Ok requestBody =>
      match outgoingRequest rt ctx c req requestBody with
      | Err err => mkRunResult c req resp [] (Return Decode.nilSlice (Some err))
      | Ok r =>
      let c := inspect "ReqHeaders" (VHeader (httpHeader r)) c in
      match httpClient c with
      | None => mkRunResult c req resp [] Panic
      | Some do =>
      match do r with
      | Err err => mkRunResult c req resp [r] (Return Decode.nilSlice (Some err))
      | Ok res =>
      let c := inspect "ResStatusCode" (VInt (StatusCode res)) c in
      let c := inspect "ResHeaders" (VHeader (resHeader res)) c in
      let c := inspect "ResCookies" (VCookies (resHeader res)) c in
      let c := inspect "ResContentLength" (VInt (ContentLength res)) c in
      if negb (StatusCode res =? StatusOK) then
        mkRunResult c req resp [r]
          (Return Decode.nilSlice (Some (httpStatusError (StatusCode res))))
      else
      match ResBody res with
      | Err err =>
          mkRunResult c req resp [r]
            (Return Decode.nilSlice (Some (Wrap err "reading body")))
      | Ok buf =>
      let c := inspect "ResBody" (VString buf) c in
      let '(d, e) := decodeBody rt buf resp in
      match e with
      | Some err =>
          mkRunResult c req (pointee d) [r]
            (Return Decode.nilSlice (Some (Wrap err "decoding response")))
      | None =>
          if (0 <? Decode.len (Errors (gr d)))%nat
          then mkRunResult c req (pointee d) [r] (Return (Errors (gr d)) None)
          else mkRunResult c req (pointee d) [r] (Return Decode.nilSlice None)
      end
      end
      end
      end
      end
      end
  end.

(** ** The package's tests, as data *)

Module Tests.

(** A JSON value written out without white space.  Keys and strings are
    written between double quotes as they are: the texts below have nothing
    to escape. *)
Definition quote (s : string) : string :=
  String (ascii_of_N 34) (s +:+ String (ascii_of_N 34) EmptyString).

Definition renderNumber (n : jnumber) : string :=
  match n with
  | NInt n => formatInt n
  | NDec m e => formatInt m +:+ "e" +:+ formatInt e
  end.

Fixpoint render (j : json) : string :=
  match j with
  | JNull => "null"
  | JBool true => "true"
  | JBool false => "false"
  | JNum n => renderNumber n
  | JStr s => quote s
  | JArr items =>
      let fix each (l : list json) : string :=
        match l with
        | [] => EmptyString
        | [x] => render x
        | x :: l' => render x +:+ "," +:+ each l'
        end in
      "[" +:+ each items +:+ "]"
  | JObj members =>
      let fix each (l : list (string * json)) : string :=
        match l with
        | [] => EmptyString
        | [(k, x)] => quote k +:+ ":" +:+ render x
        | (k, x) :: l' => quote k +:+ ":" +:+ render x +:+ "," +:+ each l'
        end in
      "{" +:+ each members +:+ "}"
  end.

(** The response of TestRunSimple and TestRunWithOpts. *)
Definition simpleDoc : json :=
  JObj [("data", JObj [("something", JStr "yes")])].

(** The response of TestRunWithGraphQLErrors. *)
Definition errorsDoc : json :=
  JObj [("data", JObj [("something", JStr "yes")]);
        ("errors",
         JArr [JObj [("message", JStr "oops");
                     ("locations",
                      JArr [JObj [("line", JNum (NInt 1)); ("column", JNum (NInt 2))]]);
                     ("path", JArr [JStr "some"; JNum (NInt 1)]);
                     ("extensions", JObj [("code", JStr "failcode")])]])].

(** The response of TestBadRequest. *)
Definition badRequestDoc : json :=
  JObj [("errors", JArr [JObj [("message", JStr "badbad")]])].

(** A response whose data holds a number that no float64 can hold. *)
Definition hugeDoc : json :=
  JObj [("data", JObj [("n", JNum (NDec 1 999))]);
        ("errors", JArr [JObj [("message", JStr "oops")]])].

Definition documents : list json :=
  [simpleDoc; errorsDoc; badRequestDoc; hugeDoc].

(** A decoder that reads the texts of [documents] and no other. *)
Definition scanDocuments (text : string) : result json :=
  match List.find (fun j => String.eqb (render j) text) documents with
  | Some j => Ok j
  | None => Err (SyntaxError "invalid character")
  end.

(** A runtime for the tests: every endpoint parses, [range] visits a map in
    the order of [map_to_list], and the default client is off line. *)
Definition runtime : Runtime :=
  mkRuntime scanDocuments (fun _ => None) map_to_list
    (fun h => Permutation_refl (map_to_list h))
    (fun _ => Err (errorString "dial tcp: connection refused")).

(** An httptest server that answers every request with one status and
    body. *)
Definition server (status : Z) (doc : json) : HTTPClient :=
  fun _ =>
    Ok (mkHTTPResponse status ∅ (Z.of_nat (String.length (render doc)))
          (Ok (render doc))).

Definition clientOf (status : Z) (doc : json) : Client :=
  NewClient runtime "http://127.0.0.1:8080"
    [WithHTTPClient (Some (server status doc))].

(** &Request{q: "query {}"} *)
Definition plainRequest : Request := mkRequest "query {}" None None ∅.

(** var responseData map[string]string *)
Definition responseData : option (gmap string string) := None.

(** The client of TestRunWithOpts, with one more header, [X-A], that the
    request below sets as well. *)
Definition optsClient : Client :=
  NewClient runtime "http://127.0.0.1:8080"
    [WithHTTPClient (Some (server 200 simpleDoc));
     WithHeaders runtime {[ "X-Some-Fromcli" := ["cliVal"]; "X-A" := ["1"] ]}].

Definition optsQuery : string := "query name($some:ID!) {some(some:$some){else}}".

(** The second request of TestRunWithOpts: no headers of its own. *)
Definition optsRequest2 : Request :=
  NewRequest optsQuery [WithVars (Some [("some", GInt 5)]); WithOperationName "name"].

(** The first request of TestRunWithOpts: req.Header.Add("X-Some-Fromreq",
    "reqVal"), and then req.Header.Add("X-A", "2"). *)
Definition optsRequest : Request :=
  setRequestHeader
    (HTTPHeader.Add "X-A" "2" (HTTPHeader.Add "X-Some-Fromreq" "reqVal" ∅))
    optsRequest2.

End Tests.

(** ** Vocabulary of the properties *)

Import Decode.

(** The names under which [Run] records into [InspectRun]. *)
Definition inspectKeys : gset string :=
  {[ "ReqBody"; "ReqHeaders"; "ResStatusCode"; "ResHeaders"; "ResCookies";
     "ResContentLength"; "ResBody" ]}.

(** What [InspectRun] holds during a call for [req]: a map with the
    envelope of [req] under [ReqBody] and no name outside [inspectKeys]. *)
Definition recorded (req : Request) (c : Client) : Prop :=
  exists m : InspectData,
    InspectRun c = Some m
    /\ m !! "ReqBody"
       = Some (VRequestBody (mkRequestBody (q req) (vars req) (opName req)))
    /\ dom m ⊆ inspectKeys.

(** The snapshot of a call that has read the response body. *)
Definition inspected (c : Client) (req : Request) (r : HTTPRequest)
    (res : HTTPResponse) (buf : string) : Client :=
  inspect "ResBody" (VString buf)
    (inspect "ResContentLength" (VInt (ContentLength res))
       (inspect "ResCookies" (VCookies (resHeader res))
          (inspect "ResHeaders" (VHeader (resHeader res))
             (inspect "ResStatusCode" (VInt (StatusCode res))
                (inspect "ReqHeaders" (VHeader (httpHeader r))
                   (inspect "ReqBody"
                      (VRequestBody (mkRequestBody (q req) (vars req) (opName req)))
                      (setInspectRun (Some ∅) c))))))).

(** The values that the entries of a header set, visited in the order
    given, add under the canonical name [K]. *)
Definition contribution (K : string) (entries : list (string * list string))
  : list string :=
  flat_map
    (fun kv => if decide (HTTPHeader.CanonicalMIMEHeaderKey kv.1 = K) then kv.2 else [])
    entries.

(** The header set [h] holds the header that [k] names under no other
    spelling than [k]. *)
Definition oneSpelling (k : string) (h : http_Header) : Prop :=
  forall k' : string,
    is_Some (h !! k') ->
    HTTPHeader.CanonicalMIMEHeaderKey k' = HTTPHeader.CanonicalMIMEHeaderKey k ->
    k' = k.

(** A value of Go's [int]. *)
Definition isInt (n : Z) : Prop := - 2 ^ 63 <= n < 2 ^ 63.

(** The JSON object of a source location as the protocol writes it, with
    lower case keys, in either order. *)
Definition locationObject (lc : Z * Z) (j : json) : Prop :=
  j = JObj [("line", JNum (NInt lc.1)); ("column", JNum (NInt lc.2))]
  \/ j = JObj [("column", JNum (NInt lc.2)); ("line", JNum (NInt lc.1))].

(** No member of [members] is stored into field [i] of a struct with the
    tags [tags]. *)
Definition noMemberFor (tags : list string) (i : nat)
    (members : list (string * json)) : Prop :=
  Forall (fun kv => matchField tags kv.1 <> Some i) members.

(** A value holds, at some depth, a value of a kind that encoding/json
    refuses. *)
Fixpoint hasOpaque (v : govalue) : bool :=
  match v with
  | GOpaque => true
  | GSlice items =>
      (fix any (l : list govalue) : bool :=
         match l with
         | [] => false
         | x :: l' => hasOpaque x || any l'
         end) items
  | GMap entries =>
      (fix any (l : gomap) : bool :=
         match l with
         | [] => false
         | (_, x) :: l' => hasOpaque x || any l'
         end) entries
  | _ => false
  end.

(** ** More data for examples *)

Module Cases.

(** A runtime whose URL parser refuses every endpoint. *)
Definition noURL : Runtime :=
  mkRuntime Tests.scanDocuments
    (fun endpoint => Some (errorString ("parse " +:+ endpoint +:+ ": invalid URI")))
    map_to_list (fun h => Permutation_refl (map_to_list h))
    (fun _ => Err (errorString "dial tcp: connection refused")).

(** A request whose variables hold a channel. *)
Definition chanRequest : Request :=
  NewRequest "query {}" [WithVars (Some [("c", GSlice [GInt 1; GOpaque])])].

(** A client built without options: its HTTP client is the default one of
    [Tests.runtime], which is off line. *)
Definition offline : Client := NewClient Tests.runtime "http://127.0.0.1:8080" [].

(** A server whose body breaks off while it is read. *)
Definition brokenBody : HTTPClient :=
  fun _ => Ok (mkHTTPResponse 200 ∅ 10 (Err (errorString "unexpected EOF"))).

(** A server that answers 200 with a text. *)
Definition textServer (text : string) : HTTPClient :=
  fun _ => Ok (mkHTTPResponse 200 ∅ (Z.of_nat (String.length text)) (Ok text)).

Definition clientWith (do : HTTPClient) : Client :=
  NewClient Tests.runtime "http://127.0.0.1:8080" [WithHTTPClient (Some do)].

(** An envelope whose errors are a string: a type error after the data. *)
Definition typeErrorDoc : json :=
  JObj [("data", JObj [("something", JStr "yes")]); ("errors", JStr "boom")].

(** An envelope with null data and one error. *)
Definition nullDataDoc : json :=
  JObj [("data", JNull); ("errors", JArr [JObj [("message", JStr "oops")]])].

(** An envelope whose data does not fit a map[string]string. *)
Definition numberDataDoc : json :=
  JObj [("data", JObj [("something", JNum (NInt 5))])].

(** The same data, and one error. *)
Definition numberDataErrorsDoc : json :=
  JObj [("data", JObj [("something", JNum (NInt 5))]);
        ("errors", JArr [JObj [("message", JStr "oops")]])].

(** An envelope with its errors before its data. *)
Definition errorsFirstDoc : json :=
  JObj [("errors", JArr [JObj [("message", JStr "oops")]]);
        ("data", JObj [("something", JStr "yes")])].

Definition documents : list json :=
  Tests.documents
  ++ [JArr []; typeErrorDoc; nullDataDoc; numberDataDoc; numberDataErrorsDoc;
      errorsFirstDoc].

(** A decoder that reads the texts of [documents] and no other. *)
Definition scanDocuments (text : string) : result json :=
  match List.find (fun j => String.eqb (Tests.render j) text) documents with
  | Some j => Ok j
  | None => Err (SyntaxError "invalid character")
  end.

Definition runtime : Runtime :=
  mkRuntime scanDocuments (fun _ => None) map_to_list
    (fun h => Permutation_refl (map_to_list h))
    (fun _ => Err (errorString "dial tcp: connection refused")).

(** A server that answers 200 with the text of a document. *)
Definition serving (doc : json) : Client := clientWith (textServer (Tests.render doc)).

End Cases.

(** The member is stored into some field of a struct with the tags [tags]. *)
Definition known (tags : list string) (kv : string * json) : bool :=
  match matchField tags kv.1 with
  | Some _ => true
  | None => false
  end.

(** The options of the package for a client, as data. *)
Inductive clientOption : Type :=
  | OptHTTPClient (httpclient : option HTTPClient)
  | OptHeaders (headers : http_Header)
  | OptClose.

Definition clientOptionFn (rt : Runtime) (o : clientOption) : ClientOption :=
  match o with
  | OptHTTPClient httpclient => WithHTTPClient httpclient
  | OptHeaders headers => WithHeaders rt headers
  | OptClose => ImmediatelyCloseReqBody
  end.

(** The HTTP client given by the last [WithHTTPClient] among the options,
    nil when there is none. *)
Definition lastHTTPClient (os : list clientOption) : option HTTPClient :=
  fold_left (fun acc o => match o with OptHTTPClient h => h | _ => acc end) os None.

(** The entries of the header sets given by the [WithHeaders] among the
    options, in the order of the options and, within each set, in the order
    in which [range] visits it. *)
Definition headerEntries (rt : Runtime) (os : list clientOption)
  : list (string * list string) :=
  flat_map (fun o => match o with OptHeaders h => rangeHeader rt h | _ => [] end) os.

Definition closes (os : list clientOption) : bool :=
  existsb (fun o => match o with OptClose => true | _ => false end) os.

(** The header set that [NewClient] starts from. *)
Definition defaultHeader : http_Header :=
  HTTPHeader.Set_ "Accept" "application/json; charset=utf-8"
    (HTTPHeader.Set_ "Content-Type" "application/json; charset=utf-8" ∅).

(** Every name of the header set is in canonical form. *)
Definition canonicalNames (h : http_Header) : Prop :=
  forall k : string, is_Some (h !! k) -> HTTPHeader.CanonicalMIMEHeaderKey k = k.

(** The options of the package for a request, as data. *)
Inductive requestOption : Type :=
  | OptVars (vars : option gomap)
  | OptOperationName (s : string).

Definition requestOptionFn (o : requestOption) : RequestOption :=
  match o with
  | OptVars vars => WithVars vars
  | OptOperationName s => WithOperationName s
  end.

(** The variables given by the last [WithVars] among the options. *)
Definition lastVars (os : list requestOption) : option gomap :=
  fold_left (fun acc o => match o with OptVars v => v | _ => acc end) os None.

(** The last operation name among the options that is not empty. *)
Definition lastOperationName (os : list requestOption) : option string :=
  fold_left
    (fun acc o =>
       match o with
       | OptOperationName s => if String.eqb s EmptyString then acc else Some s
       | _ => acc
       end) os None.

(** The Go value of a path segment: a string, or a number, which an
    interface{} holds as a float64. *)
Definition segmentValue (j : json) : govalue :=
  match j with
  | JStr s => GString s
  | JNum n => GFloat64 n
  | _ => GNil
  end.

(** A path segment as the protocol has it: a string or a number that a
    float64 can hold. *)
Definition isSegment (j : json) : Prop :=
  match j with
  | JStr _ => True
  | JNum n => overflowsFloat64 n = false
  | _ => False
  end.

(** The values of the members of an envelope that are stored into [Data],
    in the order written. *)
Fixpoint dataValues (members : list (string * json)) : list json :=
  match members with
  | [] => []
  | (key, j) :: rest =>
      match matchField graphQLResponseTags key with
      | Some 0%nat => j :: dataValues rest
      | _ => dataValues rest
      end
  end.

(** What a variable that held [t] holds once the values [js] have been
    stored through the response pointer, one after the other.  A [null] sets
    a variable of a pointer type to nil; for a variable of another kind it
    ends the storing, the pointer being gone from [Data] after it. *)
Fixpoint populate {T : Type} `{Unmarshal T} (js : list json) (t : T) : T :=
  match js with
  | [] => t
  | j :: rest =>
      match j with
      | JNull =>
          match nilPointer with
          | Some p => populate rest p
          | None => t
          end
      | _ => populate rest (unmarshal j t).1
      end
  end.

(** * Properties *)

(** ** Projections of the field updates *)

Section Frames.
Variables (c : Client) (key : string) (v : inspectValue).

Lemma httpClient_inspect : httpClient (inspect key v c) = httpClient c.
Proof. reflexivity. Qed.

Lemma Header_inspect : Header (inspect key v c) = Header c.
Proof. reflexivity. Qed.

Lemma Endpoint_inspect : Endpoint (inspect key v c) = Endpoint c.
Proof. reflexivity. Qed.

Lemma closeReq_inspect : closeReq (inspect key v c) = closeReq c.
Proof. reflexivity. Qed.
End Frames.

(** ** The request envelope *)

Lemma encodeRequestBody_null (query : string) :
  encodeRequestBody (mkRequestBody query None None)
  = Ok (JObj [("query", JStr query); ("variables", JNull); ("operationName", JNull)]).
Proof. reflexivity. Qed.

(** [Run] consults its client only through the fields that [inspect] and
    [setInspectRun] leave alone. *)
Lemma outgoingRequest_inspect (rt : Runtime) (ctx : Context) (c : Client)
    (req : Request) (body : json) (key : string) (v : inspectValue) :
  outgoingRequest rt ctx (inspect key v c) req body = outgoingRequest rt ctx c req body.
Proof. reflexivity. Qed.

Lemma outgoingRequest_setInspectRun (rt : Runtime) (ctx : Context) (c : Client)
    (req : Request) (body : json) (i : option InspectData) :
  outgoingRequest rt ctx (setInspectRun i c) req body = outgoingRequest rt ctx c req body.
Proof. reflexivity. Qed.

(** A call of [Run] hands at most one request to the HTTP client: the
    request built from the encoded envelope, and only under a context that
    is not done. *)
Lemma sent_inv {T : Type} `{Unmarshal T} (rt : Runtime) (ctx : Context)
    (c : Client) (req : Request) (resp : option T) (r : HTTPRequest) :
  In r (sent (Run rt ctx c req resp)) ->
  ctx = Live
  /\ exists body : json,
       encodeRequestBody (mkRequestBody (q req) (vars req) (opName req)) = Ok body
       /\ outgoingRequest rt Live c req body = Ok r.
Proof.
  unfold Run. destruct ctx as [|err]; [|intros []].
  destruct (encodeRequestBody _) as [body|e]; [|intros []].
  rewrite outgoingRequest_inspect, outgoingRequest_setInspectRun.
  destruct (outgoingRequest rt Live c req body) as [r0|e] eqn:Hout; [|intros []].
  cbn [httpClient inspect setInspectRun].
  assert (Hone : forall X : RunResult T, sent X = [r0] -> In r (sent X) -> r0 = r).
  { intros X -> [<-|[]]. reflexivity. }
  intros Hr. split; [reflexivity|]. exists body. split; [reflexivity|].
  rewrite Hout. f_equal. revert Hr. destruct (httpClient c) as [do|]; [|intros []].
  destruct (do r0) as [res|e]; [|by apply Hone].
  destruct (negb _); [by apply Hone|].
  destruct (ResBody res); [|by apply Hone].
  destruct (decodeBody _ _ _) as [d [e|]]; [by apply Hone|].
  destruct (_ <? _)%nat; by apply Hone.
Qed.

Lemma outgoingRequest_Body (rt : Runtime) (ctx : Context) (c : Client)
    (req : Request) (body : json) (r : HTTPRequest) :
  outgoingRequest rt ctx c req body = Ok r -> Body r = body.
Proof.
  unfold outgoingRequest, NewHTTPRequest.
  destruct (parseURL rt _); [discriminate|]. by intros [= <-].
Qed.

Lemma outgoingRequest_Ok (rt : Runtime) (ctx : Context) (c : Client)
    (req : Request) (body : json) (r : HTTPRequest) :
  outgoingRequest rt ctx c req body = Ok r <->
  parseURL rt (Endpoint c) = None
  /\ r = mkHTTPRequest "POST" (Endpoint c) body (mergeHeaders rt c req ∅)
           (closeReq c) (Some ctx).
Proof.
  unfold outgoingRequest, NewHTTPRequest.
  destruct (parseURL rt (Endpoint c)) as [e|]; cbn.
  - split; [discriminate|]. by intros [[=] _].
  - split; [by intros [= <-]|]. by intros [_ ->].
Qed.

(** The number of requests that [Run] hands to the HTTP client. *)
Lemma sent_length {T : Type} `{Unmarshal T} (rt : Runtime) (ctx : Context)
    (c : Client) (req : Request) (resp : option T) :
  sent (Run rt ctx c req resp)
  = match ctx, encodeRequestBody (mkRequestBody (q req) (vars req) (opName req)) with
    | Live, Ok body =>
        match outgoingRequest rt Live c req body, httpClient c with
        | Ok r, Some _ => [r]
        | _, _ => []
        end
    | _, _ => []
    end.
Proof.
  unfold Run. destruct ctx as [|err]; [|reflexivity].
  destruct (encodeRequestBody _) as [body|]; [|reflexivity].
  rewrite outgoingRequest_inspect, outgoingRequest_setInspectRun.
  destruct (outgoingRequest rt Live c req body) as [r|]; [|reflexivity].
  rewrite httpClient_inspect. cbn [httpClient inspect setInspectRun].
  destruct (httpClient c) as [do|]; [|reflexivity].
  destruct (do r) as [res|]; [|reflexivity].
  destruct (negb _); [reflexivity|].
  destruct (ResBody res) as [buf|]; [|reflexivity].
  destruct (decodeBody _ _ _) as [d [e|]]; [reflexivity|].
  by destruct (_ <? _)%nat.
Qed.

(** C1. A request without variables and without operation name is encoded
    as an object with the three keys [query], [variables], [operationName] in
    this order, the last two with the value [null] (no key is left out, and
    the value is neither an empty object nor an empty string); encoding does
    not fail.  [Run] sends this envelope: under a context that is not done,
    with an endpoint that parses and an HTTP client, it hands the HTTP client
    exactly one request, whose body is the envelope; and no request that
    [Run] ever sends for such a request has another body. *)
Theorem Run_absent_variables_and_operationName_are_null
    (req : Request) (Hvars : vars req = None) (HopName : opName req = None) :
  let envelope :=
    JObj [("query", JStr (q req)); ("variables", JNull); ("operationName", JNull)] in
  encodeRequestBody (mkRequestBody (q req) (vars req) (opName req)) = Ok envelope
  /\ (forall (T : Type) (U : Unmarshal T) (rt : Runtime) (c : Client)
        (resp : option T),
        parseURL rt (Endpoint c) = None ->
        is_Some (httpClient c) ->
        sent (Run rt Live c req resp)
        = [mkHTTPRequest "POST" (Endpoint c) envelope (mergeHeaders rt c req ∅)
             (closeReq c) (Some Live)])
  /\ (forall (T : Type) (U : Unmarshal T) (rt : Runtime) (ctx : Context)
        (c : Client) (resp : option T) (r : HTTPRequest),
        In r (sent (Run rt ctx c req resp)) -> Body r = envelope).
Proof.
  cbv zeta. rewrite Hvars, HopName. split; [|split].
  - apply encodeRequestBody_null.
  - intros T U rt c resp Hurl [do Hdo].
    rewrite sent_length, Hvars, HopName, encodeRequestBody_null, Hdo.
    by rewrite (proj2 (outgoingRequest_Ok rt Live c req _ _) (conj Hurl eq_refl)).
  - intros T U rt ctx c resp r Hr.
    apply sent_inv in Hr as (_ & body & Henc & Hout).
    rewrite Hvars, HopName, encodeRequestBody_null in Henc.
    injection Henc as <-. by apply outgoingRequest_Body in Hout.
Qed.

Lemma Run_absent_variables_and_operationName_witness :
  Body <$> sent (Run Tests.runtime Live (Tests.clientOf 200 Tests.simpleDoc)
                   Tests.plainRequest (Some Tests.responseData))
  = [JObj [("query", JStr "query {}"); ("variables", JNull);
           ("operationName", JNull)]].
Proof.
  destruct (Run_absent_variables_and_operationName_are_null
              Tests.plainRequest eq_refl eq_refl) as (_ & Hsent & _).
  rewrite (Hsent _ _ Tests.runtime (Tests.clientOf 200 Tests.simpleDoc)
             (Some Tests.responseData) eq_refl (mk_is_Some _ _ eq_refl)).
  reflexivity.
Defined.

(** ** Cancellation at entry *)

(** C5. Under a context that is already done, [Run] returns the error of
    the context with a nil list of GraphQL errors, hands no request to the
    HTTP client, and leaves the client ([InspectRun] included), the request
    and the response target as they were. *)
Theorem Run_done_context_returns_at_once {T : Type} `{Unmarshal T}
    (rt : Runtime) (err : error) (c : Client) (req : Request) (resp : option T) :
  let R := Run rt (Finished err) c req resp in
  returned R = Return nilSlice (Some err)
  /\ sent R = []
  /\ client R = c
  /\ InspectRun (client R) = InspectRun c
  /\ request R = req
  /\ target R = resp.
Proof. repeat split. Qed.

(** ** The diagnostic snapshot *)

Lemma recorded_ReqBody (req : Request) (c : Client) :
  recorded req
    (inspect "ReqBody" (VRequestBody (mkRequestBody (q req) (vars req) (opName req)))
       (setInspectRun (Some ∅) c)).
Proof.
  eexists. split; [reflexivity|]. split; [apply lookup_insert_eq|].
  rewrite dom_insert_L. unfold inspectKeys. set_solver.
Qed.

Lemma recorded_inspect (req : Request) (c : Client) (key : string) (v : inspectValue) :
  key ≠ "ReqBody" -> key ∈ inspectKeys ->
  recorded req c -> recorded req (inspect key v c).
Proof.
  intros Hne Hin (m & Hm & Hbody & Hdom). exists (<[key := v]> m).
  unfold inspect. cbn. rewrite Hm. cbn. split; [reflexivity|]. split.
  - by rewrite lookup_insert_ne.
  - rewrite dom_insert_L. set_solver.
Qed.

Ltac record_step :=
  apply recorded_inspect; [discriminate | unfold inspectKeys; set_solver |].

(** After a call under a context that is not done, [InspectRun] is a map
    that holds the envelope under [ReqBody] and has no name outside
    [inspectKeys]. *)
Lemma Run_recorded {T : Type} `{Unmarshal T} (rt : Runtime) (c : Client)
    (req : Request) (resp : option T) :
  recorded req (client (Run rt Live c req resp)).
Proof.
  unfold Run. pose proof (recorded_ReqBody req c) as H1.
  set (c1 := inspect "ReqBody" _ (setInspectRun (Some ∅) c)) in *. clearbody c1.
  destruct (encodeRequestBody _); [|exact H1].
  destruct (outgoingRequest _ _ _ _ _) as [r|]; [|exact H1].
  rewrite httpClient_inspect.
  destruct (httpClient c1) as [do|]; [|cbn [client]; by record_step].
  destruct (do r) as [res|]; [|cbn [client]; by record_step].
  destruct (negb _); [cbn [client]; by do 5 record_step|].
  destruct (ResBody res) as [buf|]; [|cbn [client]; by do 5 record_step].
  destruct (decodeBody _ _ _) as [d [e|]]; [cbn [client]; by do 6 record_step|].
  destruct (_ <? _)%nat; cbn [client]; by do 6 record_step.
Qed.

(** C6. Under a context that is not done, a call of [Run] does not depend
    on what [InspectRun] held before: whatever an earlier exchange left
    there, the call ends as it does from a client without snapshot, in its
    results and in the snapshot it leaves.  That snapshot holds the envelope
    of this call under [ReqBody] and nothing under a name that [Run] does not
    record under. *)
Theorem Run_resets_InspectRun {T : Type} `{Unmarshal T} (rt : Runtime)
    (c : Client) (req : Request) (resp : option T) (old : option InspectData) :
  Run rt Live (setInspectRun old c) req resp
  = Run rt Live (setInspectRun None c) req resp
  /\ exists m : InspectData,
       InspectRun (client (Run rt Live (setInspectRun old c) req resp)) = Some m
       /\ m !! "ReqBody"
          = Some (VRequestBody (mkRequestBody (q req) (vars req) (opName req)))
       /\ dom m ⊆ inspectKeys.
Proof. split; [reflexivity|]. apply Run_recorded. Qed.

(** ** The operation name option *)

(** C10. [WithOperationName] with the empty string leaves a request as it
    is, wherever it stands among the options given to [NewRequest]: it does
    not set an operation name, so that a request configured with it alone is
    encoded with [operationName] null, and it does not clear a name that an
    earlier option has set. *)
Theorem WithOperationName_empty_is_identity :
  (forall r : Request, WithOperationName EmptyString r = r)
  /\ (forall (query : string) (before after : list RequestOption),
        NewRequest query (before ++ WithOperationName EmptyString :: after)
        = NewRequest query (before ++ after))
  /\ (forall query : string,
        let req := NewRequest query [WithOperationName EmptyString] in
        opName req = None
        /\ encodeRequestBody (mkRequestBody (q req) (vars req) (opName req))
           = Ok (JObj [("query", JStr query); ("variables", JNull);
                       ("operationName", JNull)]))
  /\ (forall (s : string) (r : Request),
        s <> EmptyString ->
        opName (WithOperationName EmptyString (WithOperationName s r)) = Some s).
Proof.
  split; [reflexivity|]. split; [|split].
  - intros query before after. unfold NewRequest.
    by rewrite !fold_left_app.
  - intros query. split; reflexivity.
  - intros s r Hs. cbn. unfold WithOperationName.
    destruct (String.eqb_spec s EmptyString) as [->|_]; [done|reflexivity].
Qed.

Lemma WithOperationName_empty_witness :
  "name" <> EmptyString
  /\ opName (WithOperationName EmptyString
              (WithOperationName "name" Tests.plainRequest)) = Some "name".
Proof.
  split; [discriminate|].
  apply (proj2 (proj2 (proj2 WithOperationName_empty_is_identity))). discriminate.
Defined.

(** ** The status gate *)

Lemma formatInt_inj (a b : Z) : formatInt a = formatInt b -> a = b.
Proof.
  unfold formatInt. intros Heq. apply DecimalZ.to_int_inj.
  assert (Hnn : forall z : Z, Z.to_int z <> Decimal.Pos Decimal.Nil
                              /\ Z.to_int z <> Decimal.Neg Decimal.Nil).
  { intros [|p|p]; split; cbn; try discriminate;
      intros [= Hp]; by apply DecimalPos.Unsigned.to_uint_nonnil in Hp. }
  destruct (Hnn a) as [Ha1 Ha2], (Hnn b) as [Hb1 Hb2].
  pose proof (NilZero.isi _ Ha1 Ha2) as Ia. pose proof (NilZero.isi _ Hb1 Hb2) as Ib.
  rewrite Heq in Ia. rewrite Ia in Ib. by injection Ib.
Qed.

Lemma append_length (a b : string) :
  String.length (a +:+ b) = (String.length a + String.length b)%nat.
Proof.
  induction a as [|x a IH]; [reflexivity|].
  change (String x a +:+ b) with (String x (a +:+ b)). cbn. by rewrite IH.
Qed.

Lemma append_cancel_r (a b s : string) : a +:+ s = b +:+ s -> a = b.
Proof.
  revert b. induction a as [|x a IH]; intros [|y b] Heq.
  - reflexivity.
  - apply (f_equal String.length) in Heq.
    rewrite !append_length in Heq. cbn in Heq. lia.
  - apply (f_equal String.length) in Heq.
    rewrite !append_length in Heq. cbn in Heq. lia.
  - change (String x (a +:+ s) = String y (b +:+ s)) in Heq.
    injection Heq as -> Heq. f_equal. by apply IH.
Qed.

(** The error of the status gate tells the status code: two codes with the
    same error are the same code. *)
Lemma httpStatusError_inj (a b : Z) : httpStatusError a = httpStatusError b -> a = b.
Proof.
  unfold httpStatusError. intros [= Heq].
  change (formatInt a +:+ ": graphql server returned a non-200 status code"
          = formatInt b +:+ ": graphql server returned a non-200 status code") in Heq.
  apply formatInt_inj. by apply append_cancel_r in Heq.
Qed.

(** What [Run] does once the HTTP client has answered with a status other
    than 200. *)
Lemma Run_status_gate {T : Type} `{Unmarshal T} (rt : Runtime) (c : Client)
    (req : Request) (resp : option T) (body : json) (r : HTTPRequest)
    (do : HTTPClient) (res : HTTPResponse) :
  encodeRequestBody (mkRequestBody (q req) (vars req) (opName req)) = Ok body ->
  outgoingRequest rt Live c req body = Ok r ->
  httpClient c = Some do ->
  do r = Ok res ->
  StatusCode res <> StatusOK ->
  Run rt Live c req resp
  = mkRunResult
      (inspect "ResContentLength" (VInt (ContentLength res))
         (inspect "ResCookies" (VCookies (resHeader res))
            (inspect "ResHeaders" (VHeader (resHeader res))
               (inspect "ResStatusCode" (VInt (StatusCode res))
                  (inspect "ReqHeaders" (VHeader (httpHeader r))
                     (inspect "ReqBody"
                        (VRequestBody (mkRequestBody (q req) (vars req) (opName req)))
                        (setInspectRun (Some ∅) c)))))))
      req resp [r]
      (Return nilSlice (Some (httpStatusError (StatusCode res)))).
Proof.
  intros Henc Hout Hcl Hdo Hstatus. unfold Run.
  rewrite Henc, outgoingRequest_inspect, outgoingRequest_setInspectRun, Hout.
  rewrite !httpClient_inspect. cbn [httpClient setInspectRun]. rewrite Hcl, Hdo.
  destruct (Z.eqb_spec (StatusCode res) StatusOK) as [Heq|_]; [done|reflexivity].
Qed.

(** C3. When the HTTP client answers with a status other than 200, whatever
    the body of the response and whatever the JSON decoder would make of
    it, [Run] returns a nil list of GraphQL errors and the error of the
    status gate, which tells the status code; the response target is as it
    was; the snapshot has the status code and no response body, the body not
    having been read.  So the list returned is empty whenever the status is
    not 200. *)
Theorem Run_non_200_status {T : Type} `{Unmarshal T} (rt : Runtime) (c : Client)
    (req : Request) (resp : option T) (body : json) (r : HTTPRequest)
    (do : HTTPClient) (res : HTTPResponse)
    (Henc : encodeRequestBody (mkRequestBody (q req) (vars req) (opName req)) = Ok body)
    (Hout : outgoingRequest rt Live c req body = Ok r)
    (Hclient : httpClient c = Some do)
    (Hdo : do r = Ok res)
    (Hstatus : StatusCode res <> StatusOK) :
  let R := Run rt Live c req resp in
  returned R = Return nilSlice (Some (httpStatusError (StatusCode res)))
  /\ (forall code : Z,
        httpStatusError code = httpStatusError (StatusCode res) -> code = StatusCode res)
  /\ target R = resp
  /\ sent R = [r]
  /\ (exists m : InspectData,
        InspectRun (client R) = Some m
        /\ m !! "ResStatusCode" = Some (VInt (StatusCode res))
        /\ m !! "ResBody" = None)
  /\ (forall (errs : slice GraphQLError) (err : option error),
        returned R = Return errs err -> elements errs = []).
Proof.
  intros R. unfold R. rewrite (Run_status_gate rt c req resp body r do res) by done.
  cbn [returned target sent client]. repeat split.
  - intros code. apply httpStatusError_inj.
  - eexists. split; [reflexivity|]. simpl. split.
    + by rewrite !lookup_insert_ne, lookup_insert_eq by discriminate.
    + by rewrite !lookup_insert_ne by discriminate.
  - by intros errs err [= <- _].
Qed.

Lemma Run_non_200_status_witness :
  let R := Run Tests.runtime Live (Tests.clientOf 400 Tests.badRequestDoc)
             Tests.plainRequest (Some Tests.responseData) in
  returned R = Return nilSlice (Some (httpStatusError 400))
  /\ target R = Some Tests.responseData.
Proof.
  edestruct (Run_non_200_status Tests.runtime (Tests.clientOf 400 Tests.badRequestDoc)
               Tests.plainRequest (Some Tests.responseData))
    as (Hret & _ & Htarget & _).
  - reflexivity.
  - reflexivity.
  - reflexivity.
  - reflexivity.
  - discriminate.
  - split; [exact Hret|exact Htarget].
Defined.

(** ** Classifying a decoded response *)

(** What [Run] does once the HTTP client has answered with status 200 and
    the body has been read. *)
Lemma Run_status_ok {T : Type} `{Unmarshal T} (rt : Runtime) (c : Client)
    (req : Request) (resp : option T) (body : json) (r : HTTPRequest)
    (do : HTTPClient) (res : HTTPResponse) (buf : string) :
  encodeRequestBody (mkRequestBody (q req) (vars req) (opName req)) = Ok body ->
  outgoingRequest rt Live c req body = Ok r ->
  httpClient c = Some do ->
  do r = Ok res ->
  StatusCode res = StatusOK ->
  ResBody res = Ok buf ->
  Run rt Live c req resp
  = let '(d, e) := decodeBody rt buf resp in
    mkRunResult (inspected c req r res buf) req (pointee d) [r]
      match e with
      | Some err => Return nilSlice (Some (Wrap err "decoding response"))
      | None =>
          if (0 <? len (Errors (gr d)))%nat then Return (Errors (gr d)) None
          else Return nilSlice None
      end.
Proof.
  intros Henc Hout Hcl Hdo Hstatus Hbuf. unfold Run.
  rewrite Henc, outgoingRequest_inspect, outgoingRequest_setInspectRun, Hout.
  rewrite !httpClient_inspect. cbn [httpClient setInspectRun]. rewrite Hcl, Hdo.
  apply Z.eqb_eq in Hstatus. rewrite Hstatus, Hbuf. cbn [negb].
  destruct (decodeBody rt buf resp) as [d [e|]]; [reflexivity|].
  by destruct (_ <? _)%nat.
Qed.

(** A member of the envelope that is not stored into [Data] leaves the
    variable behind the response pointer as it is. *)
Lemma storeGraphQLResponseField_pointee {T : Type} `{Unmarshal T} (i : nat)
    (j : json) (d : decodeState T) :
  i <> 0%nat -> pointee (storeGraphQLResponseField i j d).1 = pointee d.
Proof.
  intros Hi. destruct i as [|[|i]]; [done| |reflexivity]. cbn.
  by destruct (decodeSlice _ _ _ _ _).
Qed.

Lemma decodeMembers_pointee {T : Type} `{Unmarshal T}
    (members : list (string * json)) (d : decodeState T) :
  Forall (fun kv => matchField graphQLResponseTags kv.1 <> Some 0%nat) members ->
  pointee (decodeMembers graphQLResponseTags storeGraphQLResponseField members d).1
  = pointee d.
Proof.
  intros Hall. revert d. induction Hall as [|[k j] rest Hk _ IH]; intros d.
  - reflexivity.
  - cbn [decodeMembers]. cbn in Hk.
    destruct (matchField graphQLResponseTags k) as [i|] eqn:Hm; [|apply IH].
    pose proof (storeGraphQLResponseField_pointee i j d) as Hp.
    destruct (storeGraphQLResponseField i j d) as [d1 e1]. cbn in Hp.
    specialize (IH d1).
    destruct (decodeMembers _ _ rest d1) as [d2 e2]. cbn in *.
    rewrite IH. apply Hp. by intros ->.
Qed.

(** A value that is not [null] goes through the pointer in [Data] into the
    variable behind it. *)
Lemma storeData_pointer {T : Type} `{Unmarshal T} (j : json) (d : decodeState T)
    (t : T) :
  j <> JNull -> Data (gr d) = DataPointer -> pointee d = Some t ->
  storeData j d
  = (mkDecodeState (gr d) (Some (unmarshal j t).1), (unmarshal j t).2).
Proof.
  intros Hj Hdata Ht. unfold storeData. rewrite Hdata, Ht.
  destruct (unmarshal j t) as [t' e]. by destruct j.
Qed.

(** An envelope that starts with its [data] member, the only one, stores
    it into the variable behind the response pointer. *)
Lemma decode_data_into_target {T : Type} `{Unmarshal T}
    (data : json) (rest : list (string * json)) (t : T) :
  data <> JNull ->
  Forall (fun kv => matchField graphQLResponseTags kv.1 <> Some 0%nat) rest ->
  pointee (decodeGraphQLResponse (JObj (("data", data) :: rest)) (injectTarget (Some t))).1
  = Some (unmarshal data t).1.
Proof.
  intros Hdata Hrest. unfold decodeGraphQLResponse, decodeStruct.
  cbn [decodeMembers]. change (matchField graphQLResponseTags "data") with (Some 0%nat).
  cbn [storeGraphQLResponseField].
  rewrite (storeData_pointer data (injectTarget (Some t)) t Hdata eq_refl eq_refl).
  pose proof (decodeMembers_pointee rest
                (mkDecodeState (gr (injectTarget (Some t))) (Some (unmarshal data t).1))
                Hrest) as Hp.
  destruct (decodeMembers _ _ rest _) as [d2 e2]. exact Hp.
Qed.

(** *** The target and the data members *)

Section Target.
Context {T : Type} `{Unmarshal T}.

(** Once [Data] holds no pointer it never holds one again, and the variable
    that the pointer led to is out of reach. *)
Lemma storeGraphQLResponseField_detached (i : nat) (j : json) (d : decodeState T)
    (v : govalue) :
  Data (gr d) = DataValue v ->
  pointee (storeGraphQLResponseField i j d).1 = pointee d
  /\ exists v' : govalue, Data (gr (storeGraphQLResponseField i j d).1) = DataValue v'.
Proof.
  intros Hv. destruct i as [|[|i]]; cbn.
  - unfold storeData. rewrite Hv. destruct (storeInterface j v) as [v' e].
    cbn. eauto.
  - destruct (decodeSlice _ _ _ _ _). cbn. eauto.
  - eauto.
Qed.

Lemma decodeMembers_detached (members : list (string * json)) (d : decodeState T)
    (v : govalue) :
  Data (gr d) = DataValue v ->
  pointee (decodeMembers graphQLResponseTags storeGraphQLResponseField members d).1
  = pointee d.
Proof.
  revert d v. induction members as [|[k j] rest IH]; intros d v Hv; [done|].
  cbn [decodeMembers].
  destruct (matchField graphQLResponseTags k) as [i|]; [|by eapply IH].
  destruct (storeGraphQLResponseField_detached i j d v Hv) as (Hp & v' & Hv').
  destruct (storeGraphQLResponseField i j d) as [d1 e1]. cbn in Hp, Hv'.
  specialize (IH d1 v' Hv').
  destruct (decodeMembers _ _ rest d1) as [d2 e2]. cbn in *. congruence.
Qed.

(** While [Data] holds the pointer, the variable behind it takes the values
    of the data members one after the other. *)
Lemma decodeMembers_populate (members : list (string * json)) (d : decodeState T)
    (t : T) :
  Data (gr d) = DataPointer -> pointee d = Some t ->
  pointee (decodeMembers graphQLResponseTags storeGraphQLResponseField members d).1
  = Some (populate (dataValues members) t).
Proof.
  revert d t. induction members as [|[k j] rest IH]; intros d t Hd Ht; [done|].
  cbn [decodeMembers dataValues].
  destruct (matchField graphQLResponseTags k) as [[|[|i]]|]; [| | |by apply IH].
  - cbn [storeGraphQLResponseField].
    assert (Hnull : j = JNull \/ j <> JNull) by (destruct j; auto).
    destruct Hnull as [->|Hj].
    + unfold storeData. rewrite Hd, Ht. cbn [populate].
      destruct nilPointer as [p|].
      * specialize (IH (mkDecodeState (gr d) (Some p)) p Hd eq_refl).
        destruct (decodeMembers _ _ rest _) as [d2 e2]. exact IH.
      * pose proof (decodeMembers_detached rest
                      (mkDecodeState (mkGraphQLResponse (DataValue GNil) (Errors (gr d)))
                         (Some t)) GNil eq_refl) as Hp.
        destruct (decodeMembers _ _ rest _) as [d2 e2]. exact Hp.
    + rewrite (storeData_pointer j d t Hj Hd Ht).
      specialize (IH (mkDecodeState (gr d) (Some (unmarshal j t).1))
                    (unmarshal j t).1 Hd eq_refl).
      destruct (decodeMembers _ _ rest _) as [d2 e2]. cbn in IH |- *. rewrite IH.
      by destruct j.
  - cbn [storeGraphQLResponseField].
    destruct (decodeSlice _ _ _ _ _) as [errs e1].
    specialize (IH (mkDecodeState (mkGraphQLResponse (Data (gr d)) errs) (pointee d))
                  t Hd Ht).
    destruct (decodeMembers _ _ rest _) as [d2 e2]. exact IH.
  - cbn [storeGraphQLResponseField]. specialize (IH d t Hd Ht).
    destruct (decodeMembers _ _ rest d) as [d2 e2]. exact IH.
Qed.

(** What decoding the body of a response leaves in the variable behind the
    response pointer. *)
Lemma decodeBody_pointee (rt : Runtime) (buf : string) (resp : option T)
    (members : list (string * json)) :
  scanJSON rt buf = Ok (JObj members) ->
  pointee (decodeBody rt buf resp).1 = populate (dataValues members) <$> resp.
Proof.
  intros Hscan. unfold decodeBody. rewrite Hscan.
  unfold decodeGraphQLResponse, decodeStruct. destruct resp as [t|].
  - by apply decodeMembers_populate.
  - by apply (decodeMembers_detached members (injectTarget None) GNil).
Qed.

Lemma dataValues_app (front back : list (string * json)) :
  dataValues (front ++ back) = dataValues front ++ dataValues back.
Proof.
  induction front as [|[k j] front IH]; [done|]. cbn [app dataValues].
  destruct (matchField graphQLResponseTags k) as [[|i]|]; by rewrite ?IH.
Qed.

Lemma dataValues_none (members : list (string * json)) :
  noMemberFor graphQLResponseTags 0 members -> dataValues members = [].
Proof.
  induction 1 as [|[k j] rest Hk _ IH]; [done|]. cbn [dataValues]. cbn in Hk.
  by destruct (matchField graphQLResponseTags k) as [[|i]|].
Qed.

(** One data member that is not [null], anywhere in the envelope. *)
Lemma dataValues_one (front back : list (string * json)) (key : string) (data : json) :
  matchField graphQLResponseTags key = Some 0%nat ->
  noMemberFor graphQLResponseTags 0 front ->
  noMemberFor graphQLResponseTags 0 back ->
  dataValues (front ++ (key, data) :: back) = [data].
Proof.
  intros Hkey Hfront Hback. rewrite dataValues_app. cbn [dataValues].
  by rewrite Hkey, (dataValues_none front), (dataValues_none back).
Qed.

Lemma populate_one (data : json) (t : T) :
  data <> JNull -> populate [data] t = (unmarshal data t).1.
Proof. intros Hdata. by destruct data. Qed.

(** Data members that are all [null]. *)
Lemma populate_nulls (js : list json) (t : T) :
  Forall (eq JNull) js ->
  populate js t
  = match nilPointer, js with
    | Some p, _ :: _ => p
    | _, _ => t
    end.
Proof.
  intros Hall. revert t. induction Hall as [|j js <- _ IH]; intros t.
  - by destruct nilPointer.
  - cbn [populate]. destruct nilPointer as [p|] eqn:Hp; [|done].
    rewrite IH. by destruct js.
Qed.

Lemma populate_nulls_fmap (js : list json) (resp : option T) :
  Forall (eq JNull) js ->
  populate js <$> resp
  = match nilPointer, js with
    | Some p, _ :: _ => (fun _ => p) <$> resp
    | _, _ => resp
    end.
Proof.
  intros Hall. destruct resp as [t|].
  - cbn. rewrite (populate_nulls js t Hall). by destruct nilPointer, js.
  - by destruct nilPointer, js.
Qed.

Lemma dataValues_nulls (members : list (string * json)) :
  Forall (fun kv => matchField graphQLResponseTags kv.1 = Some 0%nat -> kv.2 = JNull)
    members ->
  Forall (eq JNull) (dataValues members).
Proof.
  induction 1 as [|[k j] rest Hk _ IH]; [constructor|]. cbn [dataValues]. cbn in Hk.
  destruct (matchField graphQLResponseTags k) as [[|i]|]; try done.
  constructor; [|done]. by rewrite Hk.
Qed.

End Target.

(** C2.  When the HTTP client answers with status 200 and the body has
    been read, what [Run] returns depends first on whether the decoder
    reports an error.  If it reports none, [Run] returns no failure
    and the list of GraphQL errors decoded from the envelope when that list
    is not empty, a nil list when it is empty (an envelope without errors
    included).  If it reports one, [Run] returns a nil list and that error
    wrapped as "decoding response", whatever errors the envelope carries.
    In both cases the variable behind the response pointer holds what the
    data members of the envelope have stored into it, wherever they stand in
    the envelope: for one data member that is not [null], what the decoder
    stores for that member. *)
Theorem Run_200_returns_decoded_errors {T : Type} `{Unmarshal T} (rt : Runtime)
    (c : Client) (req : Request) (resp : option T) (body : json)
    (r : HTTPRequest) (do : HTTPClient) (res : HTTPResponse) (buf : string)
    (Henc : encodeRequestBody (mkRequestBody (q req) (vars req) (opName req)) = Ok body)
    (Hout : outgoingRequest rt Live c req body = Ok r)
    (Hclient : httpClient c = Some do)
    (Hdo : do r = Ok res)
    (Hstatus : StatusCode res = StatusOK)
    (Hbuf : ResBody res = Ok buf) :
  let R := Run rt Live c req resp in
  let decoded := (decodeBody rt buf resp).1 in
  let failure := (decodeBody rt buf resp).2 in
  (failure = None -> elements (Errors (gr decoded)) <> [] ->
   returned R = Return (Errors (gr decoded)) None)
  /\ (failure = None -> elements (Errors (gr decoded)) = [] ->
      returned R = Return nilSlice None)
  /\ (forall err : error,
        failure = Some err ->
        returned R = Return nilSlice (Some (Wrap err "decoding response")))
  /\ (forall members : list (string * json),
        scanJSON rt buf = Ok (JObj members) ->
        target R = populate (dataValues members) <$> resp)
  /\ (forall (t : T) (front back : list (string * json)) (key : string) (data : json),
        resp = Some t ->
        scanJSON rt buf = Ok (JObj (front ++ (key, data) :: back)) ->
        matchField graphQLResponseTags key = Some 0%nat ->
        data <> JNull ->
        noMemberFor graphQLResponseTags 0 front ->
        noMemberFor graphQLResponseTags 0 back ->
        target R = Some (unmarshal data t).1).
Proof.
  intros R decoded failure. unfold R, decoded, failure.
  rewrite (Run_status_ok rt c req resp body r do res buf) by done.
  assert (Htarget : forall members : list (string * json),
             scanJSON rt buf = Ok (JObj members) ->
             pointee (decodeBody rt buf resp).1 = populate (dataValues members) <$> resp).
  { intros members. apply decodeBody_pointee. }
  destruct (decodeBody rt buf resp) as [d e]. cbn [fst snd returned target] in *.
  unfold len. split; [|split; [|split; [|split]]].
  - intros -> Hne. by destruct (elements (Errors (gr d))).
  - by intros -> ->.
  - by intros err ->.
  - exact Htarget.
  - intros t front back key data -> Hscan Hkey Hdata Hfront Hback.
    rewrite (Htarget _ Hscan), (dataValues_one front back key data) by done.
    cbn [fmap option_fmap option_map]. by rewrite populate_one.
Qed.

Lemma Run_200_returns_decoded_errors_witness :
  let R := Run Cases.runtime Live (Cases.serving Cases.errorsFirstDoc)
             Tests.plainRequest (Some Tests.responseData) in
  returned R
  = Return (Slice [mkGraphQLError "oops" nilSlice nilSlice None] []) None
  /\ target R = Some (Some {[ "something" := "yes" ]}).
Proof.
  edestruct Run_200_returns_decoded_errors
    with (rt := Cases.runtime) (c := Cases.serving Cases.errorsFirstDoc)
         (req := Tests.plainRequest) (resp := Some Tests.responseData)
    as (Herrs & _ & _ & _ & Htarget).
  - reflexivity.
  - reflexivity.
  - reflexivity.
  - reflexivity.
  - reflexivity.
  - reflexivity.
  - cbv zeta in Herrs, Htarget. split.
    + rewrite Herrs; [| vm_compute; reflexivity | vm_compute; discriminate].
      vm_compute. reflexivity.
    + rewrite (Htarget Tests.responseData
                 [("errors", JArr [JObj [("message", JStr "oops")]])] []
                 "data" (JObj [("something", JStr "yes")]));
        [ vm_compute; reflexivity | reflexivity | vm_compute; reflexivity
        | reflexivity | discriminate | | constructor ].
      repeat constructor. vm_compute. discriminate.
Defined.

(** C2 does not hold without the condition that decoding reports no error:
    a response with status 200 whose envelope carries the error "oops",
    decoded into [Errors], but whose data does not fit the caller's
    map[string]string, makes [Run] return a nil list and a failure; and so
    does the same response without errors. *)
Lemma Run_200_decoding_failure_drops_errors :
  let target := Some Tests.responseData in
  let withErrors :=
    Run Cases.runtime Live (Cases.serving Cases.numberDataErrorsDoc)
      Tests.plainRequest target in
  let withoutErrors :=
    Run Cases.runtime Live (Cases.serving Cases.numberDataDoc)
      Tests.plainRequest target in
  let failure :=
    Wrap (UnmarshalTypeError (JNum (NInt 5)) "string") "decoding response" in
  default ∅ (InspectRun (client withErrors)) !! "ResStatusCode" = Some (VInt 200)
  /\ default ∅ (InspectRun (client withoutErrors)) !! "ResStatusCode" = Some (VInt 200)
  /\ elements (Errors (gr (decodeBody Cases.runtime
                             (Tests.render Cases.numberDataErrorsDoc) target).1))
     = [mkGraphQLError "oops" nilSlice nilSlice None]
  /\ returned withErrors = Return nilSlice (Some failure)
  /\ returned withoutErrors = Return nilSlice (Some failure).
Proof. cbv zeta. repeat split; vm_compute; reflexivity. Qed.

(** ** Merging the headers *)

Section Merge.
Import HTTPHeader.

Lemma lookup_Add (key value K : string) (h : http_Header) :
  Add key value h !! K
  = if decide (CanonicalMIMEHeaderKey key = K)
    then Some (default [] (h !! K) ++ [value])
    else h !! K.
Proof.
  unfold Add. rewrite lookup_insert. by destruct (decide _) as [->|].
Qed.

Lemma lookup_addValues (key K : string) (values : list string) (h : http_Header) :
  addValues key values h !! K
  = if decide (CanonicalMIMEHeaderKey key = K /\ values <> [])
    then Some (default [] (h !! K) ++ values)
    else h !! K.
Proof.
  unfold addValues. revert h. induction values as [|v values IH]; intros h.
  - cbn. destruct (decide _) as [[_ Hn]|]; [congruence|reflexivity].
  - cbn [fold_left]. rewrite IH, lookup_Add. clear IH.
    repeat case_decide; cbn; try naive_solver.
    + by rewrite <- app_assoc.
    + destruct values; [done|]. naive_solver.
Qed.

Lemma contribution_cons (K k : string) (vs : list string)
    (entries : list (string * list string)) :
  contribution K ((k, vs) :: entries)
  = (if decide (CanonicalMIMEHeaderKey k = K) then vs else [])
    ++ contribution K entries.
Proof. reflexivity. Qed.

Lemma lookup_addEntries (K : string) (entries : list (string * list string))
    (h : http_Header) :
  addEntries entries h !! K
  = if decide (contribution K entries = [])
    then h !! K
    else Some (default [] (h !! K) ++ contribution K entries).
Proof.
  unfold addEntries. revert h.
  induction entries as [|[k vs] entries IH]; intros h; [done|].
  cbn [fold_left fst snd]. rewrite IH, lookup_addValues, contribution_cons.
  clear IH. destruct (decide (CanonicalMIMEHeaderKey k = K)) as [Hk|Hk].
  - destruct vs as [|v vs].
    + rewrite (decide_False (P := _ /\ [] <> [])) by naive_solver. done.
    + rewrite (decide_True (P := _ /\ v :: vs <> [])) by done.
      rewrite (decide_False (P := (v :: vs) ++ _ = [])) by done.
      cbn [default from_option id].
      destruct (decide (contribution K entries = [])) as [->|_].
      * by rewrite app_nil_r.
      * by rewrite <- app_assoc.
  - rewrite (decide_False (P := _ /\ vs <> [])) by naive_solver. done.
Qed.

Lemma lookup_mergeHeaders (rt : Runtime) (c : Client) (req : Request) (K : string) :
  let values := contribution K (rangeHeader rt (Header c))
                ++ contribution K (rangeHeader rt (reqHeader req)) in
  mergeHeaders rt c req ∅ !! K = if decide (values = []) then None else Some values.
Proof.
  unfold mergeHeaders. cbn zeta. rewrite !lookup_addEntries, lookup_empty.
  destruct (decide (contribution K (rangeHeader rt (Header c)) = [])) as [->|Hc];
    destruct (decide (contribution K (rangeHeader rt (reqHeader req)) = [])) as [->|Hr];
    cbn; try done.
  - by rewrite decide_False.
  - rewrite app_nil_r. by rewrite decide_False.
  - rewrite decide_False; [done|]. by destruct (contribution K (rangeHeader rt (Header c))).
Qed.

Lemma contribution_none (K : string) (entries : list (string * list string)) :
  (forall (k' : string) (vs' : list string),
      (k', vs') ∈ entries -> CanonicalMIMEHeaderKey k' <> K) ->
  contribution K entries = [].
Proof.
  induction entries as [|[k0 vs0] entries IH]; intros Hno; [done|].
  rewrite contribution_cons, decide_False.
  - apply IH. intros k' vs' Hin. apply (Hno k' vs'). by right.
  - apply (Hno k0 vs0). left.
Qed.

(** A header that a set holds under one spelling only contributes the
    values stored under that spelling, in whatever order the set is
    visited. *)
Lemma contribution_oneSpelling (k : string) (values : list string)
    (entries : list (string * list string)) :
  NoDup entries.*1 ->
  (k, values) ∈ entries ->
  (forall (k' : string) (vs' : list string),
      (k', vs') ∈ entries ->
      CanonicalMIMEHeaderKey k' = CanonicalMIMEHeaderKey k -> k' = k) ->
  contribution (CanonicalMIMEHeaderKey k) entries = values.
Proof.
  induction entries as [|[k0 vs0] entries IH]; intros Hnd Hin Hone.
  - by apply elem_of_nil in Hin.
  - rewrite fmap_cons in Hnd. apply NoDup_cons in Hnd as [Hk0 Hnd]. cbn in Hk0.
    rewrite contribution_cons.
    apply elem_of_cons in Hin as [[= <- <-]|Hin].
    + rewrite decide_True by done. rewrite contribution_none; [by rewrite app_nil_r|].
      intros k' vs' Hin' He. apply Hk0.
      assert (k' = k) as ->. { apply (Hone k' vs'); [by right|done]. }
      by apply (list_elem_of_fmap_2 fst) in Hin'.
    + rewrite decide_False.
      * cbn. apply IH; [done|done|].
        intros k' vs' Hin'. apply (Hone k' vs'). by right.
      * intros He. apply Hk0. assert (k0 = k) as ->.
        { apply (Hone k0 vs0); [left|done]. }
        by apply (list_elem_of_fmap_2 fst) in Hin.
Qed.

Lemma contribution_range (rt : Runtime) (h : http_Header) (k : string)
    (values : list string) :
  h !! k = Some values -> oneSpelling k h ->
  contribution (CanonicalMIMEHeaderKey k) (rangeHeader rt h) = values.
Proof.
  intros Hk Hone. pose proof (rangeHeader_perm rt h) as Hperm.
  apply contribution_oneSpelling.
  - rewrite Hperm. apply NoDup_fst_map_to_list.
  - rewrite Hperm. by apply elem_of_map_to_list.
  - intros k' vs' Hin. rewrite Hperm in Hin.
    apply elem_of_map_to_list in Hin. apply Hone. by exists vs'.
Qed.

(** Values are only contributed by entries of the set. *)
Lemma contribution_source (rt : Runtime) (h : http_Header) (K : string) :
  contribution K (rangeHeader rt h) <> [] ->
  exists (k : string) (values : list string),
    h !! k = Some values /\ CanonicalMIMEHeaderKey k = K.
Proof.
  pose proof (rangeHeader_perm rt h) as Hperm.
  assert (Hin : forall kv, kv ∈ rangeHeader rt h -> h !! kv.1 = Some kv.2).
  { intros kv Hkv. rewrite Hperm in Hkv. by apply elem_of_map_to_list'. }
  clear Hperm. induction (rangeHeader rt h) as [|[k vs] entries IH]; [done|].
  unfold contribution. cbn [flat_map fst snd]. fold (contribution K entries).
  destruct (decide (CanonicalMIMEHeaderKey k = K)) as [Hk|_].
  - intros _. exists k, vs. split; [|done]. apply (Hin (k, vs)). left.
  - cbn. intros Hne. apply IH; [|done]. intros kv Hkv. apply Hin. by right.
Qed.

Lemma rangeHeader_empty (rt : Runtime) : rangeHeader rt ∅ = [].
Proof.
  apply Permutation_nil_r. rewrite (rangeHeader_perm rt ∅).
  by rewrite map_to_list_empty.
Qed.
End Merge.

Lemma outgoingRequest_httpHeader (rt : Runtime) (ctx : Context) (c : Client)
    (req : Request) (body : json) (r : HTTPRequest) :
  outgoingRequest rt ctx c req body = Ok r ->
  httpHeader r = mergeHeaders rt c req ∅.
Proof.
  unfold outgoingRequest, NewHTTPRequest.
  destruct (parseURL rt _); [discriminate|]. by intros [= <-].
Qed.

(** C4. The header set of every request that [Run] sends is the empty set
    to which the entries of the client's header set and then the entries of
    the request's header set have been added.  Under each canonical name it
    holds the values that the client's entries add followed by the values
    that the request's entries add, and it holds the name exactly when there
    is such a value.  So a header that both sets hold, each under one
    spelling, carries the client's values followed by the request's
    values. *)
Theorem Run_merges_headers_additively {T : Type} `{Unmarshal T} (rt : Runtime)
    (ctx : Context) (c : Client) (req : Request) (resp : option T)
    (r : HTTPRequest)
    (Hsent : In r (sent (Run rt ctx c req resp))) :
  let out := httpHeader r in
  out = HTTPHeader.addEntries (rangeHeader rt (reqHeader req))
          (HTTPHeader.addEntries (rangeHeader rt (Header c)) ∅)
  /\ (forall K : string,
        let values := contribution K (rangeHeader rt (Header c))
                      ++ contribution K (rangeHeader rt (reqHeader req)) in
        out !! K = if decide (values = []) then None else Some values)
  /\ (forall (k : string) (cvs rvs : list string),
        Header c !! k = Some cvs -> reqHeader req !! k = Some rvs ->
        oneSpelling k (Header c) -> oneSpelling k (reqHeader req) ->
        HTTPHeader.Values k out = cvs ++ rvs).
Proof.
  apply sent_inv in Hsent as (_ & body & _ & Hout).
  apply outgoingRequest_httpHeader in Hout. cbn zeta. rewrite Hout.
  split; [reflexivity|]. split.
  - intros K. apply lookup_mergeHeaders.
  - intros k cvs rvs Hc Hr Hc1 Hr1. unfold HTTPHeader.Values.
    rewrite lookup_mergeHeaders.
    rewrite (contribution_range rt (Header c) k cvs Hc Hc1).
    rewrite (contribution_range rt (reqHeader req) k rvs Hr Hr1).
    by destruct (decide _) as [->|].
Qed.

(** ** The stored header sets *)

(** A call of [Run] changes nothing of its client but [InspectRun]. *)
Lemma Run_client {T : Type} `{Unmarshal T} (rt : Runtime) (ctx : Context)
    (c : Client) (req : Request) (resp : option T) :
  client (Run rt ctx c req resp)
  = setInspectRun (InspectRun (client (Run rt ctx c req resp))) c.
Proof.
  unfold Run. destruct ctx as [|err]; [|by destruct c].
  destruct (encodeRequestBody _); [|reflexivity].
  destruct (outgoingRequest _ _ _ _ _) as [r|]; [|reflexivity].
  rewrite httpClient_inspect. cbn [httpClient inspect setInspectRun].
  destruct (httpClient c) as [do|]; [|reflexivity].
  destruct (do r) as [res|]; [|reflexivity].
  destruct (negb _); [reflexivity|].
  destruct (ResBody res) as [buf|]; [|reflexivity].
  destruct (decodeBody _ _ _) as [d [e|]]; [reflexivity|].
  by destruct (_ <? _)%nat.
Qed.

(** A call of [Run] leaves its request as it is. *)
Lemma Run_request {T : Type} `{Unmarshal T} (rt : Runtime) (ctx : Context)
    (c : Client) (req : Request) (resp : option T) :
  request (Run rt ctx c req resp) = req.
Proof.
  unfold Run. destruct ctx as [|err]; [|reflexivity].
  destruct (encodeRequestBody _); [|reflexivity].
  destruct (outgoingRequest _ _ _ _ _) as [r|]; [|reflexivity].
  rewrite httpClient_inspect. cbn [httpClient inspect setInspectRun].
  destruct (httpClient c) as [do|]; [|reflexivity].
  destruct (do r) as [res|]; [|reflexivity].
  destruct (negb _); [reflexivity|].
  destruct (ResBody res) as [buf|]; [|reflexivity].
  destruct (decodeBody _ _ _) as [d [e|]]; [reflexivity|].
  by destruct (_ <? _)%nat.
Qed.

(** C7. A call of [Run] leaves the header set stored in the client and the
    request, its header set included, as they were.  So in a later call on
    the same client, with a request that has no headers of its own, the
    header set of the request sent is made of the entries of the client's
    header set alone: every name it holds is the canonical form of a name
    that the client's header set held before the earlier call, whatever the
    request of the earlier call carried. *)
Theorem Run_leaves_header_sets {T1 : Type} `{Unmarshal T1} (rt1 : Runtime)
    (ctx1 : Context) (c : Client) (req1 : Request) (resp1 : option T1) :
  let R1 := Run rt1 ctx1 c req1 resp1 in
  Header (client R1) = Header c
  /\ request R1 = req1
  /\ forall (T2 : Type) (U2 : Unmarshal T2) (rt2 : Runtime) (ctx2 : Context)
       (req2 : Request) (resp2 : option T2) (r2 : HTTPRequest),
       reqHeader req2 = ∅ ->
       In r2 (sent (Run rt2 ctx2 (client R1) req2 resp2)) ->
       httpHeader r2 = HTTPHeader.addEntries (rangeHeader rt2 (Header c)) ∅
       /\ forall K : string,
            is_Some (httpHeader r2 !! K) ->
            exists (k : string) (values : list string),
              Header c !! k = Some values
              /\ HTTPHeader.CanonicalMIMEHeaderKey k = K.
Proof.
  cbv zeta.
  assert (Hframe : Header (client (Run rt1 ctx1 c req1 resp1)) = Header c).
  { by rewrite Run_client. }
  split; [exact Hframe|]. split; [apply Run_request|].
  intros T2 U2 rt2 ctx2 req2 resp2 r2 Hplain Hsent.
  apply sent_inv in Hsent as (_ & body & _ & Hout).
  apply outgoingRequest_httpHeader in Hout.
  unfold mergeHeaders in Hout. rewrite Hplain, rangeHeader_empty, Hframe in Hout.
  cbn [HTTPHeader.addEntries fold_left] in Hout. split; [exact Hout|].
  intros K. rewrite Hout, lookup_addEntries, lookup_empty.
  destruct (decide _) as [_|Hne]; [by intros [? [=]]|].
  intros _. by apply (contribution_source rt2).
Qed.

Lemma Run_merges_headers_additively_witness :
  let R := Run Tests.runtime Live Tests.optsClient Tests.optsRequest
             (Some Tests.responseData) in
  length (sent R) = 1%nat
  /\ Forall (fun r => httpHeader r !! "X-A" = Some ["1"; "2"]
                      /\ httpHeader r !! "X-Some-Fromreq" = Some ["reqVal"]
                      /\ httpHeader r !! "Accept"
                         = Some ["application/json; charset=utf-8"])
       (sent R).
Proof.
  cbv zeta. split; [vm_compute; reflexivity|].
  apply Forall_forall. intros r Hr. apply list_elem_of_In in Hr.
  destruct (Run_merges_headers_additively Tests.runtime Live Tests.optsClient
              Tests.optsRequest (Some Tests.responseData) r Hr) as (_ & Hlookup & _).
  rewrite !Hlookup. clear Hlookup Hr.
  repeat split; vm_compute; reflexivity.
Defined.

Lemma Run_leaves_header_sets_witness :
  let R1 := Run Tests.runtime Live Tests.optsClient Tests.optsRequest
              (Some Tests.responseData) in
  let R2 := Run Tests.runtime Live (client R1) Tests.optsRequest2 (@None unit) in
  length (sent R2) = 1%nat
  /\ Forall (fun r => httpHeader r !! "X-Some-Fromreq" = None
                      /\ httpHeader r !! "X-A" = Some ["1"])
       (sent R2).
Proof.
  cbv zeta. split; [vm_compute; reflexivity|].
  apply Forall_forall. intros r Hr. apply list_elem_of_In in Hr.
  destruct (Run_leaves_header_sets Tests.runtime Live Tests.optsClient
              Tests.optsRequest (Some Tests.responseData)) as (_ & _ & Hlater).
  destruct (Hlater unit _ Tests.runtime Live Tests.optsRequest2 None r eq_refl Hr)
    as (Hout & _).
  rewrite Hout. clear Hout Hlater Hr.
  split; vm_compute; reflexivity.
Defined.

(** ** Source locations of a GraphQL error *)

Section Locations.

Lemma decodeMembers_app {S : Type} (tags : list string)
    (storeField : nat -> json -> S -> S * option error)
    (front back : list (string * json)) (s : S) :
  decodeMembers tags storeField (front ++ back) s
  = let '(s1, e1) := decodeMembers tags storeField front s in
    let '(s2, e2) := decodeMembers tags storeField back s1 in
    (s2, saveError e1 e2).
Proof.
  revert s. induction front as [|[k j] front IH]; intros s.
  - cbn. by destruct (decodeMembers tags storeField back s).
  - cbn [app decodeMembers]. destruct (matchField tags k) as [i|]; [|apply IH].
    destruct (storeField i j s) as [s1 e1]. rewrite IH.
    destruct (decodeMembers tags storeField front s1) as [s2 e2].
    destruct (decodeMembers tags storeField back s2) as [s3 e3].
    by destruct e1, e2.
Qed.

(** The lower case keys of the protocol are stored into the fields tagged
    [Line] and [Column]: the tags match up to case. *)
Lemma matchField_line : matchField locationTags "line" = Some 0%nat.
Proof. reflexivity. Qed.

Lemma matchField_column : matchField locationTags "column" = Some 1%nat.
Proof. reflexivity. Qed.

Lemma storeInt_int (n old : Z) : isInt n -> storeInt (JNum (NInt n)) old = (n, None).
Proof.
  intros [Hlo Hhi]. unfold storeInt, parseInt.
  apply Z.leb_le in Hlo. apply Z.ltb_lt in Hhi. by rewrite Hlo, Hhi.
Qed.

Lemma decodeLocation_object (lc : Z * Z) (j : json) (old : Location) :
  isInt lc.1 -> isInt lc.2 -> locationObject lc j ->
  decodeLocation j old = (mkLocation lc.1 lc.2, None).
Proof.
  intros H1 H2 [-> | ->]; unfold decodeLocation, decodeStruct;
    cbn [decodeMembers]; rewrite ?matchField_line, ?matchField_column;
    cbn [storeLocationField Line Column]; by rewrite !storeInt_int.
Qed.

Lemma decodeItems_locations (lcs : list (Z * Z)) (items : list json)
    (old : list Location) :
  Forall2 (fun lc j => isInt lc.1 /\ isInt lc.2 /\ locationObject lc j) lcs items ->
  decodeItems zeroLocation decodeLocation items old
  = ((fun lc => mkLocation lc.1 lc.2) <$> lcs, None).
Proof.
  intros Hall. revert old.
  induction Hall as [|lc j lcs items (H1 & H2 & Hj) _ IH]; intros old; [done|].
  cbn [decodeItems]. rewrite (decodeLocation_object lc j _ H1 H2 Hj), IH.
  reflexivity.
Qed.

Lemma decodeSlice_locations (lcs : list (Z * Z)) (items : list json)
    (old : slice Location) :
  Forall2 (fun lc j => isInt lc.1 /\ isInt lc.2 /\ locationObject lc j) lcs items ->
  elements (decodeSlice ("[]" +:+ locationType) zeroLocation
              decodeLocation (JArr items) old).1
  = (fun lc => mkLocation lc.1 lc.2) <$> lcs.
Proof.
  intros Hall. unfold decodeSlice. destruct items as [|j items].
  - by inversion Hall.
  - by rewrite (decodeItems_locations lcs (j :: items) _ Hall).
Qed.

Lemma storeGraphQLErrorField_Locations (i : nat) (j : json) (g : GraphQLError) :
  i <> 1%nat -> Locations (storeGraphQLErrorField i j g).1 = Locations g.
Proof.
  intros Hi. destruct i as [|[|[|[|i]]]]; try done; cbn.
  - by destruct (storeString j (Message g)).
  - by destruct (decodeSlice _ _ _ j (Path g)).
  - by destruct (decodeMap j (Extensions g)).
Qed.

Lemma decodeMembers_Locations (members : list (string * json)) (g : GraphQLError) :
  noMemberFor graphQLErrorTags 1 members ->
  Locations (decodeMembers graphQLErrorTags storeGraphQLErrorField members g).1
  = Locations g.
Proof.
  intros Hall. revert g. induction Hall as [|[k j] rest Hk _ IH]; intros g; [done|].
  cbn [decodeMembers]. cbn in Hk.
  destruct (matchField graphQLErrorTags k) as [i|]; [|apply IH].
  pose proof (storeGraphQLErrorField_Locations i j g) as Hl.
  destruct (storeGraphQLErrorField i j g) as [g1 e1]. specialize (IH g1).
  destruct (decodeMembers _ _ rest g1) as [g2 e2]. cbn in *.
  rewrite IH. apply Hl. by intros ->.
Qed.

(** An error record whose last [locations] member is an array of location
    objects is decoded with these locations, whatever its other members
    and whatever the element of the slice held before. *)
Lemma decodeGraphQLError_locations (lcs : list (Z * Z)) (items : list json)
    (front back : list (string * json)) (old : GraphQLError) :
  Forall2 (fun lc j => isInt lc.1 /\ isInt lc.2 /\ locationObject lc j) lcs items ->
  noMemberFor graphQLErrorTags 1 back ->
  elements (Locations
              (decodeGraphQLError
                 (JObj (front ++ ("locations", JArr items) :: back)) old).1)
  = (fun lc => mkLocation lc.1 lc.2) <$> lcs.
Proof.
  intros Hall Hback. unfold decodeGraphQLError, decodeStruct.
  rewrite decodeMembers_app.
  destruct (decodeMembers _ _ front old) as [g1 e1]. cbn [decodeMembers].
  change (matchField graphQLErrorTags "locations") with (Some 1%nat).
  cbn [storeGraphQLErrorField].
  pose proof (decodeSlice_locations lcs items (Locations g1) Hall) as Hl.
  destruct (decodeSlice _ _ _ (JArr items) (Locations g1)) as [l e2].
  pose proof (decodeMembers_Locations back
                (mkGraphQLError (Message g1) l (Path g1) (Extensions g1)) Hback) as Hb.
  destruct (decodeMembers _ _ back _) as [g3 e3]. cbn in *. by rewrite Hb.
Qed.

Lemma decodeItems_lookup {A : Type} (zero : A)
    (storeElem : json -> A -> A * option error) (items : list json)
    (old : list A) (i : nat) (j : json) :
  items !! i = Some j ->
  exists before : A,
    (decodeItems zero storeElem items old).1 !! i = Some (storeElem j before).1.
Proof.
  revert old i. induction items as [|j0 items IH]; intros old i Hi; [done|].
  cbn [decodeItems]. destruct i as [|i].
  - injection Hi as ->. exists (hd zero old).
    destruct (storeElem j (hd zero old)), (decodeItems zero storeElem items (tl old)).
    reflexivity.
  - destruct (IH (tl old) i Hi) as [before Hb]. exists before.
    destruct (storeElem j0 (hd zero old)), (decodeItems zero storeElem items (tl old)).
    exact Hb.
Qed.

Lemma storeGraphQLResponseField_Errors {T : Type} `{Unmarshal T} (i : nat)
    (j : json) (d : decodeState T) :
  i <> 1%nat -> Errors (gr (storeGraphQLResponseField i j d).1) = Errors (gr d).
Proof.
  intros Hi. destruct i as [|[|i]]; try done. cbn. unfold storeData.
  destruct (Data (gr d)) as [|v], (pointee d) as [t|]; cbn.
  - destruct j; try by destruct (unmarshal _ t).
    by destruct nilPointer.
  - by destruct (storeInterface j GNil).
  - by destruct (storeInterface j v).
  - by destruct (storeInterface j v).
Qed.

Lemma decodeMembers_Errors {T : Type} `{Unmarshal T}
    (members : list (string * json)) (d : decodeState T) :
  noMemberFor graphQLResponseTags 1 members ->
  Errors (gr (decodeMembers graphQLResponseTags storeGraphQLResponseField members d).1)
  = Errors (gr d).
Proof.
  intros Hall. revert d. induction Hall as [|[k j] rest Hk _ IH]; intros d; [done|].
  cbn [decodeMembers]. cbn in Hk.
  destruct (matchField graphQLResponseTags k) as [i|]; [|apply IH].
  pose proof (storeGraphQLResponseField_Errors i j d) as Hl.
  destruct (storeGraphQLResponseField i j d) as [d1 e1]. specialize (IH d1).
  destruct (decodeMembers _ _ rest d1) as [d2 e2]. cbn in *.
  rewrite IH. apply Hl. by intros ->.
Qed.

End Locations.

(** C8. In the envelope of a response, an error record whose [locations]
    member is an array of objects with the keys [line] and [column], in
    lower case as the protocol writes them, holding integers of Go's [int],
    is decoded into a [GraphQLError] whose [Locations] are exactly these
    pairs of line and column, in the order of the array: the fields are
    tagged [Line] and [Column], and encoding/json matches keys to tags up to
    case. *)
Theorem locations_decoded_from_lower_case_keys {T : Type} `{Unmarshal T}
    (d0 : decodeState T) (front back : list (string * json)) (records : list json)
    (i : nat) (rfront rback : list (string * json)) (items : list json)
    (lcs : list (Z * Z))
    (Hlast : noMemberFor graphQLResponseTags 1 back)
    (Hrecord : records !! i = Some (JObj (rfront ++ ("locations", JArr items) :: rback)))
    (Hrlast : noMemberFor graphQLErrorTags 1 rback)
    (Hitems : Forall2 (fun lc j => isInt lc.1 /\ isInt lc.2 /\ locationObject lc j)
                lcs items) :
  exists g : GraphQLError,
    elements
      (Errors (gr (decodeGraphQLResponse
                     (JObj (front ++ ("errors", JArr records) :: back)) d0).1)) !! i
    = Some g
    /\ elements (Locations g) = (fun lc => mkLocation lc.1 lc.2) <$> lcs.
Proof.
  unfold decodeGraphQLResponse, decodeStruct. rewrite decodeMembers_app.
  destruct (decodeMembers _ _ front d0) as [d1 e1]. cbn [decodeMembers].
  change (matchField graphQLResponseTags "errors") with (Some 1%nat).
  cbn [storeGraphQLResponseField].
  destruct records as [|r0 records]; [done|]. unfold decodeSlice.
  destruct (decodeItems_lookup zeroGraphQLError decodeGraphQLError (r0 :: records)
              (backing (Errors (gr d1))) i _ Hrecord) as [before Hg].
  destruct (decodeItems _ _ (r0 :: records) _) as [gs e2].
  pose proof (decodeMembers_Errors back
                (mkDecodeState
                   (mkGraphQLResponse (Data (gr d1))
                      (Slice gs (skipn (length (r0 :: records)) (backing (Errors (gr d1))))))
                   (pointee d1)) Hlast) as Hb.
  destruct (decodeMembers _ _ back _) as [d3 e3]. cbn in Hb, Hg |- *.
  rewrite Hb. cbn [elements]. eexists. split; [exact Hg|].
  by apply decodeGraphQLError_locations.
Qed.

Lemma locations_decoded_from_lower_case_keys_witness :
  exists g : GraphQLError,
    elements
      (Errors (gr (decodeGraphQLResponse Tests.errorsDoc
                     (injectTarget (Some Tests.responseData))).1)) !! 0%nat
    = Some g
    /\ elements (Locations g) = [mkLocation 1 2].
Proof.
  apply (locations_decoded_from_lower_case_keys
           (injectTarget (Some Tests.responseData))
           [("data", JObj [("something", JStr "yes")])] []
           [JObj [("message", JStr "oops");
                  ("locations",
                   JArr [JObj [("line", JNum (NInt 1)); ("column", JNum (NInt 2))]]);
                  ("path", JArr [JStr "some"; JNum (NInt 1)]);
                  ("extensions", JObj [("code", JStr "failcode")])]]
           0 [("message", JStr "oops")]
           [("path", JArr [JStr "some"; JNum (NInt 1)]);
            ("extensions", JObj [("code", JStr "failcode")])]
           [JObj [("line", JNum (NInt 1)); ("column", JNum (NInt 2))]]
           [(1, 2)]).
  - constructor.
  - reflexivity.
  - repeat constructor; discriminate.
  - constructor; [|constructor].
    split; [unfold isInt; cbn; lia|]. split; [unfold isInt; cbn; lia|].
    left. reflexivity.
Defined.

(** ** A nil response object *)

(** The errors decoded from an envelope do not depend on the response
    target. *)
Lemma decodeMembers_Errors_target {T : Type} `{Unmarshal T}
    (members : list (string * json)) (d : decodeState T) (d' : decodeState unit) :
  Errors (gr d) = Errors (gr d') ->
  Errors (gr (decodeMembers graphQLResponseTags storeGraphQLResponseField members d).1)
  = Errors (gr (decodeMembers graphQLResponseTags storeGraphQLResponseField members d').1).
Proof.
  revert d d'. induction members as [|[k j] rest IH]; intros d d' Heq; [done|].
  cbn [decodeMembers]. destruct (matchField graphQLResponseTags k) as [i|]; [|by apply IH].
  assert (Hstep : Errors (gr (storeGraphQLResponseField i j d).1)
                  = Errors (gr (storeGraphQLResponseField i j d').1)).
  { destruct (decide (i = 1%nat)) as [->|Hi].
    - cbn. rewrite Heq. by destruct (decodeSlice _ _ _ j (Errors (gr d'))).
    - by rewrite !storeGraphQLResponseField_Errors. }
  destruct (storeGraphQLResponseField i j d) as [d1 e1].
  destruct (storeGraphQLResponseField i j d') as [d1' e1'].
  specialize (IH d1 d1' Hstep).
  destruct (decodeMembers _ _ rest d1), (decodeMembers _ _ rest d1'). exact IH.
Qed.

Lemma decodeGraphQLResponse_Errors_target {T : Type} `{Unmarshal T}
    (j : json) (resp : option T) :
  Errors (gr (decodeGraphQLResponse j (injectTarget resp)).1)
  = Errors (gr (decodeGraphQLResponse j (injectTarget (@None unit))).1).
Proof.
  unfold decodeGraphQLResponse, decodeStruct. destruct j; try reflexivity.
  by apply decodeMembers_Errors_target.
Qed.

(** C9, as the code has it.  The data of a response is decoded also when the
    response object is nil, into an interface{}: [Run] has no branch on a nil
    [resp], although its doc comment says "Pass in a nil response object to
    skip response parsing".  For the response [Tests.hugeDoc], whose data has a
    member holding the number 1e999, a call with a pointer to a struct{}
    returns the error "oops" of the envelope and no failure; the same call
    with a nil response object fails in decoding and returns no GraphQL
    error. *)
Theorem Run_nil_target_decodes_data :
  returned (Run Tests.runtime Live (Tests.clientOf 200 Tests.hugeDoc)
              Tests.plainRequest (Some tt))
  = Return (Slice [mkGraphQLError "oops" nilSlice nilSlice None] []) None
  /\ returned (Run Tests.runtime Live (Tests.clientOf 200 Tests.hugeDoc)
                 Tests.plainRequest (@None unit))
     = Return nilSlice
         (Some (Wrap (UnmarshalTypeError (JNum (NDec 1 999)) "float64")
                  "decoding response")).
Proof. split; vm_compute; reflexivity. Qed.

(** What does hold for a nil response object: the call hands the same
    request to the HTTP client and leaves the same snapshot as a call with a
    target, and when both calls return without failure they return the same
    list of GraphQL errors. *)
Theorem Run_nil_target_same_exchange {T : Type} `{Unmarshal T} (rt : Runtime)
    (ctx : Context) (c : Client) (req : Request) (resp : option T) :
  let R := Run rt ctx c req resp in
  let N := Run rt ctx c req (@None unit) in
  sent N = sent R
  /\ client N = client R
  /\ (forall errs errs' : slice GraphQLError,
        returned R = Return errs None -> returned N = Return errs' None ->
        errs' = errs).
Proof.
  unfold Run. destruct ctx as [|err]; [|by repeat split].
  destruct (encodeRequestBody _); [|by repeat split].
  destruct (outgoingRequest _ _ _ _ _) as [r|]; [|by repeat split].
  rewrite httpClient_inspect. cbn [httpClient inspect setInspectRun].
  destruct (httpClient c) as [do|]; [|by repeat split].
  destruct (do r) as [res|]; [|by repeat split].
  destruct (negb _); [by repeat split|].
  destruct (ResBody res) as [buf|]; [|by repeat split].
  unfold decodeBody. destruct (scanJSON rt buf) as [j|e]; [|by repeat split].
  pose proof (decodeGraphQLResponse_Errors_target j resp) as Herrs.
  destruct (decodeGraphQLResponse j (injectTarget resp)) as [d [e|]];
    destruct (decodeGraphQLResponse j (injectTarget None)) as [d' [e'|]];
    cbn in Herrs; unfold len; rewrite <- ?Herrs;
    destruct (elements (Errors (gr d))) eqn:Hel; cbn;
    repeat split; try discriminate; try congruence.
Qed.

(** ** The package's tests, replayed *)

(** TestRunSimple: the body sent, the data decoded, no GraphQL errors. *)
Example replay_TestRunSimple :
  let R := Run Tests.runtime Live (Tests.clientOf 200 Tests.simpleDoc)
             Tests.plainRequest (Some Tests.responseData) in
  Body <$> sent R
  = [JObj [("query", JStr "query {}"); ("variables", JNull); ("operationName", JNull)]]
  /\ returned R = Return nilSlice None
  /\ target R = Some (Some {[ "something" := "yes" ]}).
Proof. cbv zeta. repeat split; vm_compute; reflexivity. Qed.

(** TestRunWithOpts: variables and operation name in the body, the headers
    of the client and of the request on the request sent. *)
Example replay_TestRunWithOpts :
  let R := Run Tests.runtime Live Tests.optsClient Tests.optsRequest
             (Some Tests.responseData) in
  Body <$> sent R
  = [JObj [("query", JStr Tests.optsQuery);
           ("variables", JObj [("some", JNum (NInt 5))]);
           ("operationName", JStr "name")]]
  /\ (fun r => HTTPHeader.Values "x-some-fromcli" (httpHeader r)) <$> sent R
     = [["cliVal"]]
  /\ (fun r => HTTPHeader.Values "x-some-fromreq" (httpHeader r)) <$> sent R
     = [["reqVal"]].
Proof. cbv zeta. repeat split; vm_compute; reflexivity. Qed.

(** An already cancelled context: no call of the server. *)
Example replay_cancelled_context :
  let R := Run Tests.runtime (Finished (errorString "context canceled"))
             (Tests.clientOf 200 Tests.simpleDoc) Tests.plainRequest
             (Some Tests.responseData) in
  sent R = [] /\ returned R = Return nilSlice (Some (errorString "context canceled")).
Proof. split; reflexivity. Qed.

(** * Further properties of the package *)

(** ** How a call of Run ends *)

(** [Run] ends in one of four ways: in a panic; with a failure and a nil
    list; with a nil list and no failure; with a list that is not empty and
    no failure.  It never returns a list together with a failure, and never
    an empty list that is not nil. *)
Theorem Run_returns_list_or_failure {T : Type} `{Unmarshal T} (rt : Runtime)
    (ctx : Context) (c : Client) (req : Request) (resp : option T) :
  let R := Run rt ctx c req resp in
  returned R = Panic
  \/ (exists err : error, returned R = Return nilSlice (Some err))
  \/ returned R = Return nilSlice None
  \/ (exists errs : slice GraphQLError,
        elements errs <> [] /\ returned R = Return errs None).
Proof.
  unfold Run. destruct ctx as [|err]; [|right; left; by eexists].
  destruct (encodeRequestBody _); [|right; left; by eexists].
  destruct (outgoingRequest _ _ _ _ _) as [r|]; [|right; left; by eexists].
  rewrite httpClient_inspect. cbn [httpClient inspect setInspectRun].
  destruct (httpClient c) as [do|]; [|by left].
  destruct (do r) as [res|]; [|right; left; by eexists].
  destruct (negb _); [right; left; by eexists|].
  destruct (ResBody res) as [buf|]; [|right; left; by eexists].
  destruct (decodeBody _ _ _) as [d [e|]]; [right; left; by eexists|].
  unfold len. destruct (elements (Errors (gr d))) as [|g gs] eqn:Hel; cbn.
  - right; right; by left.
  - right; right; right. exists (Errors (gr d)). by rewrite Hel.
Qed.

(** ** The request sent *)

(** [Run] hands a request to the HTTP client exactly when the context is
    not done, the envelope can be encoded, the endpoint parses as a URL and
    the client has an HTTP client; it then hands over one request: a POST to
    the endpoint with the encoded envelope as body, the merged headers,
    [Close] as the client's [closeReq] says, bound to the context of the
    call.  Otherwise it hands over none. *)
Theorem Run_sends_one_POST {T : Type} `{Unmarshal T} (rt : Runtime)
    (ctx : Context) (c : Client) (req : Request) (resp : option T) :
  let R := Run rt ctx c req resp in
  let ready :=
    ctx = Live
    /\ (exists body : json,
          encodeRequestBody (mkRequestBody (q req) (vars req) (opName req)) = Ok body)
    /\ parseURL rt (Endpoint c) = None
    /\ is_Some (httpClient c) in
  (ready ->
   exists body : json,
     encodeRequestBody (mkRequestBody (q req) (vars req) (opName req)) = Ok body
     /\ sent R = [mkHTTPRequest "POST" (Endpoint c) body (mergeHeaders rt c req ∅)
                    (closeReq c) (Some Live)])
  /\ (~ ready -> sent R = []).
Proof.
  cbv zeta. rewrite sent_length. split.
  - intros (-> & [body Henc] & Hurl & [do Hdo]). exists body. split; [done|].
    rewrite Henc, Hdo.
    destruct (outgoingRequest rt Live c req body) as [r|e] eqn:Hout.
    + apply outgoingRequest_Ok in Hout as [_ ->]. reflexivity.
    + exfalso. unfold outgoingRequest, NewHTTPRequest in Hout.
      by rewrite Hurl in Hout.
  - intros Hnot. destruct ctx as [|err]; [|reflexivity].
    destruct (encodeRequestBody _) as [body|] eqn:Henc; [|reflexivity].
    destruct (outgoingRequest rt Live c req body) as [r|] eqn:Hout; [|reflexivity].
    destruct (httpClient c) as [do|] eqn:Hdo; [|reflexivity].
    exfalso. apply Hnot. apply outgoingRequest_Ok in Hout as [Hurl _].
    split; [done|]. split; [by exists body|]. split; [done|]. by exists do.
Qed.

(** ** Failures before the exchange *)

(** Induction on a value and on the values it holds. *)
Lemma govalue_nested_ind (P : govalue -> Prop)
    (HNil : P GNil) (HBool : forall b, P (GBool b)) (HInt : forall n, P (GInt n))
    (HFloat : forall x, P (GFloat64 x)) (HString : forall s, P (GString s))
    (HSlice : forall items, Forall P items -> P (GSlice items))
    (HMap : forall entries : gomap, Forall (fun kv => P kv.2) entries -> P (GMap entries))
    (HOpaque : P GOpaque) :
  forall v : govalue, P v.
Proof.
  fix IH 1. intros [|b|n|x|s|items|entries|].
  - exact HNil.
  - apply HBool.
  - apply HInt.
  - apply HFloat.
  - apply HString.
  - apply HSlice. induction items as [|x items IHitems]; constructor;
      [apply IH|exact IHitems].
  - apply HMap. induction entries as [|[k x] entries IHentries]; constructor;
      [apply IH|exact IHentries].
  - exact HOpaque.
Qed.

(** Marshal refuses a value exactly when the value holds one of a kind it
    does not support. *)
Lemma marshal_None (v : govalue) : Encode.marshal v = None <-> hasOpaque v = true.
Proof.
  induction v as [| | | | |items IH|entries IH|] using govalue_nested_ind;
    cbn; try (split; discriminate); try done.
  - match goal with
    | |- (match ?t with Some _ => _ | None => _ end = None) <-> (?u = true) =>
        assert (Haux : t = None <-> u = true)
    end.
    { induction IH as [|x items Hx _ IHitems]; cbn; [split; discriminate|].
      destruct (Encode.marshal x) as [j|] eqn:Hj.
      - assert (Hno : hasOpaque x = false).
        { destruct (hasOpaque x); [|done]. discriminate (proj2 Hx eq_refl). }
        rewrite Hno. cbn [orb]. rewrite <- IHitems.
        match goal with |- context [match ?t with Some _ => _ | None => _ end] =>
          destruct t end; split; (discriminate || done).
      - rewrite (proj1 Hx) by done. done. }
    rewrite <- Haux.
    match goal with |- context [match ?t with Some _ => _ | None => _ end] =>
      destruct t end; split; (discriminate || done).
  - match goal with
    | |- (match ?t with Some _ => _ | None => _ end = None) <-> (?u = true) =>
        assert (Haux : t = None <-> u = true)
    end.
    { induction IH as [|[k x] entries Hx _ IHentries]; cbn; [split; discriminate|].
      cbn in Hx. destruct (Encode.marshal x) as [j|] eqn:Hj.
      - assert (Hno : hasOpaque x = false).
        { destruct (hasOpaque x); [|done]. discriminate (proj2 Hx eq_refl). }
        rewrite Hno. cbn [orb]. rewrite <- IHentries.
        match goal with |- context [match ?t with Some _ => _ | None => _ end] =>
          destruct t end; split; (discriminate || done).
      - rewrite (proj1 Hx) by done. done. }
    rewrite <- Haux.
    match goal with |- context [match ?t with Some _ => _ | None => _ end] =>
      destruct t end; split; (discriminate || done).
Qed.

Lemma encodeRequestBody_Err (b : RequestBody) (e : error) :
  encodeRequestBody b = Err e <->
  e = UnsupportedTypeError
  /\ exists m : gomap, Variables b = Some m /\ hasOpaque (GMap m) = true.
Proof.
  unfold encodeRequestBody, Encode.marshalStruct, requestBodyFields.
  cbn [Encode.marshalFields Encode.omitempty Encode.name andb].
  assert (Hname : exists j, Encode.marshal
            match OperationName b with Some s => GString s | None => GNil end = Some j).
  { destruct (OperationName b); by eexists. }
  destruct Hname as [jn ->]. change (Encode.marshal (GString (Query b))) with (Some (JStr (Query b))).
  destruct (Variables b) as [m|].
  - destruct (Encode.marshal (GMap m)) as [j|] eqn:Hm.
    + split; [discriminate|]. intros [_ (m' & [= <-] & Hop)].
      apply (proj2 (marshal_None (GMap m))) in Hop. congruence.
    + apply (proj1 (marshal_None (GMap m))) in Hm.
      split; [intros [= <-]; split; [done|by exists m]|by intros [-> _]].
  - change (Encode.marshal GNil) with (Some JNull).
    split; [discriminate|]. by intros [_ (m' & [=] & _)].
Qed.

(** What [Run] does when the envelope cannot be encoded. *)
Lemma Run_encode_error {T : Type} `{Unmarshal T} (rt : Runtime) (c : Client)
    (req : Request) (resp : option T) (e : error) :
  encodeRequestBody (mkRequestBody (q req) (vars req) (opName req)) = Err e ->
  Run rt Live c req resp
  = mkRunResult
      (inspect "ReqBody" (VRequestBody (mkRequestBody (q req) (vars req) (opName req)))
         (setInspectRun (Some ∅) c))
      req resp [] (Return nilSlice (Some (Wrap e "encode body"))).
Proof. intros Henc. unfold Run. by rewrite Henc. Qed.

(** Variables that hold a value of a kind that encoding/json refuses (a
    channel, a function, a complex number), at any depth, make [Run] fail
    with the encoder's error wrapped as "encode body": no request is handed
    to the HTTP client, the response target is as it was, and the snapshot
    holds the envelope under [ReqBody] and nothing else. *)
Theorem Run_unencodable_variables {T : Type} `{Unmarshal T} (rt : Runtime)
    (c : Client) (req : Request) (resp : option T) (m : gomap)
    (Hvars : vars req = Some m)
    (Hopaque : hasOpaque (GMap m) = true) :
  let R := Run rt Live c req resp in
  returned R = Return nilSlice (Some (Wrap UnsupportedTypeError "encode body"))
  /\ sent R = []
  /\ target R = resp
  /\ InspectRun (client R)
     = Some {[ "ReqBody" := VRequestBody (mkRequestBody (q req) (vars req) (opName req)) ]}.
Proof.
  cbv zeta.
  assert (Henc : encodeRequestBody (mkRequestBody (q req) (vars req) (opName req))
                 = Err UnsupportedTypeError).
  { apply encodeRequestBody_Err. split; [done|]. by exists m. }
  rewrite (Run_encode_error rt c req resp _ Henc). by repeat split.
Qed.

Lemma Run_unencodable_variables_witness :
  let R := Run Tests.runtime Live Cases.offline Cases.chanRequest (@None unit) in
  returned R = Return nilSlice (Some (Wrap UnsupportedTypeError "encode body"))
  /\ sent R = [].
Proof.
  destruct (Run_unencodable_variables Tests.runtime Cases.offline Cases.chanRequest
              (@None unit) [("c", GSlice [GInt 1; GOpaque])] eq_refl eq_refl)
    as (Hret & Hsent & _).
  split; [exact Hret|exact Hsent].
Defined.

(** What [Run] does when the endpoint does not parse. *)
Lemma Run_url_error {T : Type} `{Unmarshal T} (rt : Runtime) (c : Client)
    (req : Request) (resp : option T) (body : json) (e : error) :
  encodeRequestBody (mkRequestBody (q req) (vars req) (opName req)) = Ok body ->
  parseURL rt (Endpoint c) = Some e ->
  Run rt Live c req resp
  = mkRunResult
      (inspect "ReqBody" (VRequestBody (mkRequestBody (q req) (vars req) (opName req)))
         (setInspectRun (Some ∅) c))
      req resp [] (Return nilSlice (Some e)).
Proof.
  intros Henc Hurl. unfold Run, outgoingRequest, NewHTTPRequest.
  rewrite Henc. cbn [Endpoint inspect setInspectRun]. by rewrite Hurl.
Qed.

(** An endpoint that net/url refuses makes [Run] return the error of
    http.NewRequest as it is, not wrapped: no request is handed to the HTTP
    client, and the snapshot holds the envelope under [ReqBody] but no
    request headers, the headers being merged only after the request has
    been made. *)
Theorem Run_invalid_endpoint {T : Type} `{Unmarshal T} (rt : Runtime)
    (c : Client) (req : Request) (resp : option T) (body : json) (e : error)
    (Henc : encodeRequestBody (mkRequestBody (q req) (vars req) (opName req)) = Ok body)
    (Hurl : parseURL rt (Endpoint c) = Some e) :
  let R := Run rt Live c req resp in
  returned R = Return nilSlice (Some e)
  /\ sent R = []
  /\ target R = resp
  /\ InspectRun (client R)
     = Some {[ "ReqBody" := VRequestBody (mkRequestBody (q req) (vars req) (opName req)) ]}.
Proof. cbv zeta. rewrite (Run_url_error rt c req resp body e Henc Hurl). by repeat split. Qed.

Lemma Run_invalid_endpoint_witness :
  let R := Run Cases.noURL Live Cases.offline Tests.plainRequest (@None unit) in
  returned R
  = Return nilSlice (Some (errorString "parse http://127.0.0.1:8080: invalid URI"))
  /\ sent R = [].
Proof.
  edestruct (Run_invalid_endpoint (T := unit))
    with (rt := Cases.noURL) (c := Cases.offline) (req := Tests.plainRequest)
         (resp := @None unit) as (Hret & Hsent & _).
  - reflexivity.
  - reflexivity.
  - split; [exact Hret|exact Hsent].
Defined.

(** ** Failures of the exchange *)

(** What [Run] does when the HTTP client fails. *)
Lemma Run_transport_error {T : Type} `{Unmarshal T} (rt : Runtime) (c : Client)
    (req : Request) (resp : option T) (body : json) (r : HTTPRequest)
    (do : HTTPClient) (e : error) :
  encodeRequestBody (mkRequestBody (q req) (vars req) (opName req)) = Ok body ->
  outgoingRequest rt Live c req body = Ok r ->
  httpClient c = Some do ->
  do r = Err e ->
  Run rt Live c req resp
  = mkRunResult
      (inspect "ReqHeaders" (VHeader (httpHeader r))
         (inspect "ReqBody" (VRequestBody (mkRequestBody (q req) (vars req) (opName req)))
            (setInspectRun (Some ∅) c)))
      req resp [r] (Return nilSlice (Some e)).
Proof.
  intros Henc Hout Hcl Hdo. unfold Run.
  rewrite Henc, outgoingRequest_inspect, outgoingRequest_setInspectRun, Hout.
  rewrite !httpClient_inspect. cbn [httpClient setInspectRun]. by rewrite Hcl, Hdo.
Qed.

(** A failure of the HTTP client is returned as it is, not wrapped, with a
    nil list; the response target is as it was; the snapshot holds the
    envelope and the merged request headers, and nothing of a response. *)
Theorem Run_transport_failure {T : Type} `{Unmarshal T} (rt : Runtime)
    (c : Client) (req : Request) (resp : option T) (body : json)
    (r : HTTPRequest) (do : HTTPClient) (e : error)
    (Henc : encodeRequestBody (mkRequestBody (q req) (vars req) (opName req)) = Ok body)
    (Hout : outgoingRequest rt Live c req body = Ok r)
    (Hclient : httpClient c = Some do)
    (Hdo : do r = Err e) :
  let R := Run rt Live c req resp in
  returned R = Return nilSlice (Some e)
  /\ sent R = [r]
  /\ target R = resp
  /\ InspectRun (client R)
     = Some (<[ "ReqHeaders" := VHeader (mergeHeaders rt c req ∅) ]>
               {[ "ReqBody" := VRequestBody (mkRequestBody (q req) (vars req) (opName req)) ]}).
Proof.
  cbv zeta. rewrite (Run_transport_error rt c req resp body r do e) by done.
  apply outgoingRequest_httpHeader in Hout. rewrite Hout. by repeat split.
Qed.

Lemma Run_transport_failure_witness :
  let R := Run Tests.runtime Live Cases.offline Tests.plainRequest
             (Some Tests.responseData) in
  returned R = Return nilSlice (Some (errorString "dial tcp: connection refused"))
  /\ target R = Some Tests.responseData.
Proof.
  edestruct Run_transport_failure
    with (rt := Tests.runtime) (c := Cases.offline) (req := Tests.plainRequest)
         (resp := Some Tests.responseData) as (Hret & _ & Htarget & _).
  - reflexivity.
  - reflexivity.
  - reflexivity.
  - reflexivity.
  - split; [exact Hret|exact Htarget].
Defined.

(** What [Run] does when reading the body fails. *)
Lemma Run_read_error {T : Type} `{Unmarshal T} (rt : Runtime) (c : Client)
    (req : Request) (resp : option T) (body : json) (r : HTTPRequest)
    (do : HTTPClient) (res : HTTPResponse) (e : error) :
  encodeRequestBody (mkRequestBody (q req) (vars req) (opName req)) = Ok body ->
  outgoingRequest rt Live c req body = Ok r ->
  httpClient c = Some do ->
  do r = Ok res ->
  StatusCode res = StatusOK ->
  ResBody res = Err e ->
  Run rt Live c req resp
  = mkRunResult
      (inspect "ResContentLength" (VInt (ContentLength res))
         (inspect "ResCookies" (VCookies (resHeader res))
            (inspect "ResHeaders" (VHeader (resHeader res))
               (inspect "ResStatusCode" (VInt (StatusCode res))
                  (inspect "ReqHeaders" (VHeader (httpHeader r))
                     (inspect "ReqBody"
                        (VRequestBody (mkRequestBody (q req) (vars req) (opName req)))
                        (setInspectRun (Some ∅) c)))))))
      req resp [r] (Return nilSlice (Some (Wrap e "reading body"))).
Proof.
  intros Henc Hout Hcl Hdo Hstatus Hbuf. unfold Run.
  rewrite Henc, outgoingRequest_inspect, outgoingRequest_setInspectRun, Hout.
  rewrite !httpClient_inspect. cbn [httpClient setInspectRun]. rewrite Hcl, Hdo.
  apply Z.eqb_eq in Hstatus. by rewrite Hstatus, Hbuf.
Qed.

Lemma InspectRun_inspected (c : Client) (req : Request) (r : HTTPRequest)
    (res : HTTPResponse) (buf : string) :
  exists m : InspectData,
    InspectRun (inspected c req r res buf) = Some m
    /\ dom m = inspectKeys
    /\ m !! "ReqBody"
       = Some (VRequestBody (mkRequestBody (q req) (vars req) (opName req)))
    /\ m !! "ReqHeaders" = Some (VHeader (httpHeader r))
    /\ m !! "ResStatusCode" = Some (VInt (StatusCode res))
    /\ m !! "ResHeaders" = Some (VHeader (resHeader res))
    /\ m !! "ResCookies" = Some (VCookies (resHeader res))
    /\ m !! "ResContentLength" = Some (VInt (ContentLength res))
    /\ m !! "ResBody" = Some (VString buf).
Proof.
  eexists. split; [reflexivity|]. simpl. split.
  - rewrite !dom_insert_L, dom_empty_L. unfold inspectKeys. set_solver.
  - repeat split.
    all: by rewrite ?lookup_insert_eq, ?lookup_insert_ne, ?lookup_insert_eq by discriminate.
Qed.

(** Once the HTTP client has answered with status 200 and the body has been
    read, the snapshot of the call holds, whatever decoding then makes of
    the body, exactly the seven entries of this exchange: the envelope and
    the merged headers sent, and the status code, headers, cookies, content
    length and raw body received. *)
Theorem Run_snapshot_after_200 {T : Type} `{Unmarshal T} (rt : Runtime)
    (c : Client) (req : Request) (resp : option T) (body : json)
    (r : HTTPRequest) (do : HTTPClient) (res : HTTPResponse) (buf : string)
    (Henc : encodeRequestBody (mkRequestBody (q req) (vars req) (opName req)) = Ok body)
    (Hout : outgoingRequest rt Live c req body = Ok r)
    (Hclient : httpClient c = Some do)
    (Hdo : do r = Ok res)
    (Hstatus : StatusCode res = StatusOK)
    (Hbuf : ResBody res = Ok buf) :
  exists m : InspectData,
    InspectRun (client (Run rt Live c req resp)) = Some m
    /\ dom m = inspectKeys
    /\ m !! "ReqBody" = Some (VRequestBody (mkRequestBody (q req) (vars req) (opName req)))
    /\ m !! "ReqHeaders" = Some (VHeader (mergeHeaders rt c req ∅))
    /\ m !! "ResStatusCode" = Some (VInt 200)
    /\ m !! "ResHeaders" = Some (VHeader (resHeader res))
    /\ m !! "ResCookies" = Some (VCookies (resHeader res))
    /\ m !! "ResContentLength" = Some (VInt (ContentLength res))
    /\ m !! "ResBody" = Some (VString buf).
Proof.
  rewrite (Run_status_ok rt c req resp body r do res buf) by done.
  destruct (decodeBody rt buf resp) as [d e]. cbn [client].
  apply outgoingRequest_httpHeader in Hout. rewrite <- Hout.
  change 200 with StatusOK. rewrite <- Hstatus. apply InspectRun_inspected.
Qed.

Lemma Run_snapshot_after_200_witness :
  exists m : InspectData,
    InspectRun (client (Run Tests.runtime Live (Tests.clientOf 200 Tests.simpleDoc)
                          Tests.plainRequest (Some Tests.responseData))) = Some m
    /\ m !! "ResBody" = Some (VString (Tests.render Tests.simpleDoc)).
Proof.
  edestruct Run_snapshot_after_200
    with (rt := Tests.runtime) (c := Tests.clientOf 200 Tests.simpleDoc)
         (req := Tests.plainRequest) (resp := Some Tests.responseData)
    as (m & Hm & _ & _ & _ & _ & _ & _ & _ & Hbody).
  - reflexivity.
  - reflexivity.
  - reflexivity.
  - reflexivity.
  - reflexivity.
  - reflexivity.
  - exists m. split; [exact Hm|exact Hbody].
Defined.

(** A body that cannot be read to its end, or that is not JSON, makes [Run]
    fail with the cause wrapped as "reading body" resp. "decoding response"
    and a nil list; the response target is as it was.  The raw body is in
    the snapshot only in the second case. *)
Theorem Run_unusable_body {T : Type} `{Unmarshal T} (rt : Runtime)
    (c : Client) (req : Request) (resp : option T) (body : json)
    (r : HTTPRequest) (do : HTTPClient) (res : HTTPResponse)
    (Henc : encodeRequestBody (mkRequestBody (q req) (vars req) (opName req)) = Ok body)
    (Hout : outgoingRequest rt Live c req body = Ok r)
    (Hclient : httpClient c = Some do)
    (Hdo : do r = Ok res)
    (Hstatus : StatusCode res = StatusOK) :
  let R := Run rt Live c req resp in
  (forall e : error,
      ResBody res = Err e ->
      returned R = Return nilSlice (Some (Wrap e "reading body"))
      /\ target R = resp
      /\ exists m : InspectData,
           InspectRun (client R) = Some m /\ m !! "ResBody" = None)
  /\ (forall (buf : string) (e : error),
        ResBody res = Ok buf -> scanJSON rt buf = Err e ->
        returned R = Return nilSlice (Some (Wrap e "decoding response"))
        /\ target R = resp
        /\ exists m : InspectData,
             InspectRun (client R) = Some m /\ m !! "ResBody" = Some (VString buf)).
Proof.
  cbv zeta. split.
  - intros e Hbuf. rewrite (Run_read_error rt c req resp body r do res e) by done.
    split; [done|]. split; [done|]. eexists. split; [reflexivity|]. simpl.
    by rewrite !lookup_insert_ne by discriminate.
  - intros buf e Hbuf Hscan.
    rewrite (Run_status_ok rt c req resp body r do res buf) by done.
    unfold decodeBody. rewrite Hscan. cbn [returned target pointee injectTarget client].
    split; [done|]. split; [done|]. eexists. split; [reflexivity|]. simpl.
    by rewrite lookup_insert_eq.
Qed.

Lemma Run_unusable_body_witness :
  returned (Run Tests.runtime Live (Cases.clientWith Cases.brokenBody)
              Tests.plainRequest (Some Tests.responseData))
  = Return nilSlice (Some (Wrap (errorString "unexpected EOF") "reading body"))
  /\ returned (Run Tests.runtime Live (Cases.clientWith (Cases.textServer "<html>"))
                 Tests.plainRequest (Some Tests.responseData))
     = Return nilSlice
         (Some (Wrap (SyntaxError "invalid character") "decoding response")).
Proof.
  split.
  - edestruct Run_unusable_body
      with (rt := Tests.runtime) (c := Cases.clientWith Cases.brokenBody)
           (req := Tests.plainRequest) (resp := Some Tests.responseData)
      as [Hread _]; [reflexivity..|].
    edestruct Hread as [Hret _]; [reflexivity|exact Hret].
  - edestruct Run_unusable_body
      with (rt := Tests.runtime) (c := Cases.clientWith (Cases.textServer "<html>"))
           (req := Tests.plainRequest) (resp := Some Tests.responseData)
      as [_ Hscan]; [reflexivity..|].
    edestruct Hscan as [Hret _]; [reflexivity|vm_compute; reflexivity|exact Hret].
Defined.

(** ** Edge cases of the envelope *)

(** A body whose JSON value is [null] counts as an envelope without data
    and without errors: [Run] returns nil and nil.  A body whose JSON value is
    an array, a string, a number or a boolean fails in decoding with a type
    error.  In both cases the response target is as it was. *)
Theorem Run_envelope_not_an_object {T : Type} `{Unmarshal T} (rt : Runtime)
    (c : Client) (req : Request) (resp : option T) (body : json)
    (r : HTTPRequest) (do : HTTPClient) (res : HTTPResponse) (buf : string)
    (j : json)
    (Henc : encodeRequestBody (mkRequestBody (q req) (vars req) (opName req)) = Ok body)
    (Hout : outgoingRequest rt Live c req body = Ok r)
    (Hclient : httpClient c = Some do)
    (Hdo : do r = Ok res)
    (Hstatus : StatusCode res = StatusOK)
    (Hbuf : ResBody res = Ok buf)
    (Hscan : scanJSON rt buf = Ok j)
    (Hj : forall members : list (string * json), j <> JObj members) :
  let R := Run rt Live c req resp in
  target R = resp
  /\ returned R
     = match j with
       | JNull => Return nilSlice None
       | _ => Return nilSlice
                (Some (Wrap (UnmarshalTypeError j "graphqlgo.GraphQLResponse")
                         "decoding response"))
       end.
Proof.
  cbv zeta. rewrite (Run_status_ok rt c req resp body r do res buf) by done.
  unfold decodeBody. rewrite Hscan.
  destruct j as [| | | | |members]; try by split.
  by destruct (Hj members).
Qed.

Lemma Run_envelope_not_an_object_witness :
  let R := Run Cases.runtime Live (Cases.serving (JArr []))
             Tests.plainRequest (Some Tests.responseData) in
  target R = Some Tests.responseData
  /\ returned R
     = Return nilSlice
         (Some (Wrap (UnmarshalTypeError (JArr []) "graphqlgo.GraphQLResponse")
                  "decoding response")).
Proof.
  eapply (Run_envelope_not_an_object Cases.runtime (Cases.serving (JArr []))
            Tests.plainRequest (Some Tests.responseData) _ _ _ _ _ (JArr []));
    try reflexivity.
  discriminate.
Defined.

(** A type error met after the data has been stored does not undo it: for
    an envelope with its [data] member first and only, [Run] fails with the
    error wrapped as "decoding response" and a nil list, and the variable
    behind the response pointer holds what the decoder has stored for the
    data. *)
Theorem Run_type_error_keeps_data {T : Type} `{Unmarshal T} (rt : Runtime)
    (c : Client) (req : Request) (t : T) (body : json)
    (r : HTTPRequest) (do : HTTPClient) (res : HTTPResponse) (buf : string)
    (data : json) (rest : list (string * json)) (d : decodeState T) (e : error)
    (Henc : encodeRequestBody (mkRequestBody (q req) (vars req) (opName req)) = Ok body)
    (Hout : outgoingRequest rt Live c req body = Ok r)
    (Hclient : httpClient c = Some do)
    (Hdo : do r = Ok res)
    (Hstatus : StatusCode res = StatusOK)
    (Hbuf : ResBody res = Ok buf)
    (Hscan : scanJSON rt buf = Ok (JObj (("data", data) :: rest)))
    (Hdata : data <> JNull)
    (Hrest : noMemberFor graphQLResponseTags 0 rest)
    (Hdecode : decodeBody rt buf (Some t) = (d, Some e)) :
  let R := Run rt Live c req (Some t) in
  returned R = Return nilSlice (Some (Wrap e "decoding response"))
  /\ target R = Some (unmarshal data t).1.
Proof.
  cbv zeta. rewrite (Run_status_ok rt c req (Some t) body r do res buf) by done.
  rewrite Hdecode. cbn [returned target]. split; [done|].
  unfold decodeBody in Hdecode. rewrite Hscan in Hdecode.
  rewrite <- (decode_data_into_target data rest t Hdata Hrest). by rewrite Hdecode.
Qed.

Lemma Run_type_error_keeps_data_witness :
  let R := Run Cases.runtime Live (Cases.serving Cases.typeErrorDoc)
             Tests.plainRequest (Some Tests.responseData) in
  returned R
  = Return nilSlice
      (Some (Wrap (UnmarshalTypeError (JStr "boom") "[]graphqlgo.GraphQLError")
               "decoding response"))
  /\ target R = Some (Some {[ "something" := "yes" ]}).
Proof.
  set (d := (decodeBody Cases.runtime (Tests.render Cases.typeErrorDoc)
               (Some Tests.responseData)).1).
  edestruct Run_type_error_keeps_data
    with (rt := Cases.runtime) (c := Cases.serving Cases.typeErrorDoc)
         (req := Tests.plainRequest) (t := Tests.responseData) (d := d)
         (data := JObj [("something", JStr "yes")])
         (rest := [("errors", JStr "boom")])
    as (Hret & Htarget).
  - reflexivity.
  - reflexivity.
  - reflexivity.
  - reflexivity.
  - reflexivity.
  - reflexivity.
  - vm_compute. reflexivity.
  - discriminate.
  - repeat constructor. discriminate.
  - vm_compute. reflexivity.
  - split; [exact Hret|]. rewrite Htarget. vm_compute. reflexivity.
Defined.

(** An envelope without a data member leaves the variable behind the
    response pointer as it was, and so does one whose data is [null] when the
    variable is not itself a pointer: [null] does not reset a struct, a map,
    a slice or an interface.  A variable of a pointer type, though, is set to
    nil by a data member that is [null].  All this whatever else the envelope
    holds and whether or not decoding fails. *)
Theorem Run_null_data_and_target {T : Type} `{Unmarshal T} (rt : Runtime)
    (c : Client) (req : Request) (resp : option T) (body : json)
    (r : HTTPRequest) (do : HTTPClient) (res : HTTPResponse) (buf : string)
    (members : list (string * json))
    (Henc : encodeRequestBody (mkRequestBody (q req) (vars req) (opName req)) = Ok body)
    (Hout : outgoingRequest rt Live c req body = Ok r)
    (Hclient : httpClient c = Some do)
    (Hdo : do r = Ok res)
    (Hstatus : StatusCode res = StatusOK)
    (Hbuf : ResBody res = Ok buf)
    (Hscan : scanJSON rt buf = Ok (JObj members))
    (Hnull : Forall (fun kv => matchField graphQLResponseTags kv.1 = Some 0%nat ->
                               kv.2 = JNull) members) :
  let R := Run rt Live c req resp in
  (dataValues members = [] -> target R = resp)
  /\ (nilPointer = None -> target R = resp)
  /\ (forall p : T,
        nilPointer = Some p -> dataValues members <> [] ->
        target R = (fun _ => p) <$> resp).
Proof.
  cbv zeta. rewrite (Run_status_ok rt c req resp body r do res buf) by done.
  pose proof (decodeBody_pointee rt buf resp members Hscan) as Hp.
  destruct (decodeBody rt buf resp) as [d e]. cbn [fst target] in *.
  rewrite Hp, (populate_nulls_fmap (dataValues members) resp)
    by by apply dataValues_nulls.
  split; [|split].
  - intros ->. destruct nilPointer, resp; reflexivity.
  - intros ->. by destruct resp.
  - intros p -> Hsome. by destruct (dataValues members), resp.
Qed.

Lemma Run_null_data_and_target_witness :
  let kept : option (gmap string string) := Some {[ "kept" := "yes" ]} in
  target (Run Cases.runtime Live (Cases.serving Cases.nullDataDoc)
            Tests.plainRequest (Some kept))
  = Some kept
  /\ target (Run Cases.runtime Live (Cases.serving Cases.nullDataDoc)
               Tests.plainRequest (Some (PointerTo kept)))
     = Some NilPointer.
Proof.
  cbv zeta. split.
  - eapply (Run_null_data_and_target (T := option (gmap string string))
              Cases.runtime (Cases.serving Cases.nullDataDoc)
              Tests.plainRequest _ _ _ _ _ _
              [("data", JNull); ("errors", JArr [JObj [("message", JStr "oops")]])]);
      try reflexivity.
    repeat constructor; cbn; discriminate.
  - eapply (Run_null_data_and_target (T := pointer (option (gmap string string)))
              Cases.runtime (Cases.serving Cases.nullDataDoc)
              Tests.plainRequest (Some (PointerTo _)) _ _ _ _ _
              [("data", JNull); ("errors", JArr [JObj [("message", JStr "oops")]])]);
      try reflexivity.
    + repeat constructor; cbn; discriminate.
    + vm_compute. discriminate.
Defined.

(** ** Members of the envelope and of an error record *)

Lemma decodeMembers_known {S : Type} (tags : list string)
    (storeField : nat -> json -> S -> S * option error)
    (members : list (string * json)) (s : S) :
  decodeMembers tags storeField (List.filter (known tags) members) s
  = decodeMembers tags storeField members s.
Proof.
  revert s. induction members as [|[k j] members IH]; intros s; [done|].
  cbn [List.filter decodeMembers]. unfold known at 1. cbn [fst].
  destruct (matchField tags k) as [i|] eqn:Hk; [|apply IH].
  cbn [decodeMembers]. rewrite Hk. destruct (storeField i j s) as [s1 e1].
  by rewrite IH.
Qed.

(** Members that no field takes, such as an [extensions] member of the
    envelope, are skipped: the envelope and every error record decode as they
    do without these members, to the same values and the same error. *)
Theorem unknown_members_are_skipped {T : Type} `{Unmarshal T}
    (members : list (string * json)) :
  (forall d : decodeState T,
      decodeGraphQLResponse (JObj (List.filter (known graphQLResponseTags) members)) d
      = decodeGraphQLResponse (JObj members) d)
  /\ (forall g : GraphQLError,
        decodeGraphQLError (JObj (List.filter (known graphQLErrorTags) members)) g
        = decodeGraphQLError (JObj members) g).
Proof. split; intros; apply decodeMembers_known. Qed.

Section ErrorRecord.

Lemma storeGraphQLErrorField_Message (i : nat) (j : json) (g : GraphQLError) :
  i <> 0%nat -> Message (storeGraphQLErrorField i j g).1 = Message g.
Proof.
  intros Hi. destruct i as [|[|[|[|i]]]]; try done; cbn.
  - by destruct (decodeSlice _ _ _ j (Locations g)).
  - by destruct (decodeSlice _ _ _ j (Path g)).
  - by destruct (decodeMap j (Extensions g)).
Qed.

Lemma storeGraphQLErrorField_Path (i : nat) (j : json) (g : GraphQLError) :
  i <> 2%nat -> Path (storeGraphQLErrorField i j g).1 = Path g.
Proof.
  intros Hi. destruct i as [|[|[|[|i]]]]; try done; cbn.
  - by destruct (storeString j (Message g)).
  - by destruct (decodeSlice _ _ _ j (Locations g)).
  - by destruct (decodeMap j (Extensions g)).
Qed.

Lemma storeGraphQLErrorField_Extensions (i : nat) (j : json) (g : GraphQLError) :
  i <> 3%nat -> Extensions (storeGraphQLErrorField i j g).1 = Extensions g.
Proof.
  intros Hi. destruct i as [|[|[|[|i]]]]; try done; cbn.
  - by destruct (storeString j (Message g)).
  - by destruct (decodeSlice _ _ _ j (Locations g)).
  - by destruct (decodeSlice _ _ _ j (Path g)).
Qed.

(** A field that no member is stored into keeps its value. *)
Lemma decodeMembers_field {A : Type} (field : GraphQLError -> A) (i : nat)
    (members : list (string * json)) (g : GraphQLError) :
  (forall (i' : nat) (j : json) (g' : GraphQLError),
      i' <> i -> field (storeGraphQLErrorField i' j g').1 = field g') ->
  noMemberFor graphQLErrorTags i members ->
  field (decodeMembers graphQLErrorTags storeGraphQLErrorField members g).1 = field g.
Proof.
  intros Hother Hall. revert g.
  induction Hall as [|[k j] rest Hk _ IH]; intros g; [done|].
  cbn [decodeMembers]. cbn in Hk.
  destruct (matchField graphQLErrorTags k) as [i'|]; [|apply IH].
  pose proof (Hother i' j g) as Hl.
  destruct (storeGraphQLErrorField i' j g) as [g1 e1]. specialize (IH g1).
  destruct (decodeMembers _ _ rest g1) as [g2 e2]. cbn in *.
  rewrite IH. apply Hl. by intros ->.
Qed.

End ErrorRecord.

(** The members of an error record are optional: a field whose member is
    missing keeps the value it had, which in a new record is the empty
    message, nil locations, a nil path and nil extensions; and the message of
    a record is the string of its last [message] member. *)
Theorem error_record_members_are_optional (members : list (string * json))
    (g : GraphQLError) :
  let g' := (decodeGraphQLError (JObj members) g).1 in
  (noMemberFor graphQLErrorTags 0 members -> Message g' = Message g)
  /\ (noMemberFor graphQLErrorTags 1 members -> Locations g' = Locations g)
  /\ (noMemberFor graphQLErrorTags 2 members -> Path g' = Path g)
  /\ (noMemberFor graphQLErrorTags 3 members -> Extensions g' = Extensions g)
  /\ (forall (front back : list (string * json)) (s : string),
        members = front ++ ("message", JStr s) :: back ->
        noMemberFor graphQLErrorTags 0 back ->
        Message g' = s).
Proof.
  cbv zeta. unfold decodeGraphQLError, decodeStruct. repeat split.
  - apply (decodeMembers_field Message). apply storeGraphQLErrorField_Message.
  - apply decodeMembers_Locations.
  - apply (decodeMembers_field Path). apply storeGraphQLErrorField_Path.
  - apply (decodeMembers_field Extensions). apply storeGraphQLErrorField_Extensions.
  - intros front back s -> Hback. rewrite decodeMembers_app.
    destruct (decodeMembers _ _ front g) as [g1 e1]. cbn [decodeMembers].
    change (matchField graphQLErrorTags "message") with (Some 0%nat).
    cbn [storeGraphQLErrorField storeString].
    pose proof (decodeMembers_field Message 0 back
                  (mkGraphQLError s (Locations g1) (Path g1) (Extensions g1))
                  storeGraphQLErrorField_Message Hback) as Hm.
    destruct (decodeMembers _ _ back _) as [g2 e2]. exact Hm.
Qed.

Lemma error_record_members_are_optional_witness :
  let g' := (decodeGraphQLError (JObj [("message", JStr "badbad")])
               zeroGraphQLError).1 in
  Message g' = "badbad" /\ Locations g' = nilSlice /\ Path g' = nilSlice
  /\ Extensions g' = None.
Proof.
  destruct (error_record_members_are_optional [("message", JStr "badbad")]
              zeroGraphQLError) as (_ & Hl & Hp & Hx & Hm).
  cbv zeta. split; [|split; [|split]].
  - apply (Hm [] []); [reflexivity|constructor].
  - apply Hl. repeat constructor. discriminate.
  - apply Hp. repeat constructor. discriminate.
  - apply Hx. repeat constructor. discriminate.
Defined.

(** ** Building a client *)

Lemma Run_Panic {T : Type} `{Unmarshal T} (rt : Runtime) (ctx : Context)
    (c : Client) (req : Request) (resp : option T) :
  returned (Run rt ctx c req resp) = Panic -> httpClient c = None.
Proof.
  unfold Run. destruct ctx as [|err]; [|discriminate].
  destruct (encodeRequestBody _); [|discriminate].
  destruct (outgoingRequest _ _ _ _ _) as [r|]; [|discriminate].
  rewrite httpClient_inspect. cbn [httpClient inspect setInspectRun].
  destruct (httpClient c) as [do|]; [|done].
  destruct (do r) as [res|]; [|discriminate].
  destruct (negb _); [discriminate|].
  destruct (ResBody res) as [buf|]; [|discriminate].
  destruct (decodeBody _ _ _) as [d [e|]]; [discriminate|].
  by destruct (_ <? _)%nat.
Qed.

(** Whatever options [NewClient] is given, the client it returns has an
    HTTP client, so that no call of [Run] on it panics for want of one.  The last option
    decides: after [WithHTTPClient] with an HTTP client that client is used,
    and after [WithHTTPClient] with nil the default one, also when an earlier
    option had given a client. *)
Theorem NewClient_has_HTTP_client (rt : Runtime) (endpoint : string)
    (opts : list ClientOption) :
  is_Some (httpClient (NewClient rt endpoint opts))
  /\ (forall (T : Type) (U : Unmarshal T) (rt' : Runtime) (ctx : Context)
        (req : Request) (resp : option T),
        returned (Run rt' ctx (NewClient rt endpoint opts) req resp) <> Panic)
  /\ (forall do : HTTPClient,
        httpClient (NewClient rt endpoint (opts ++ [WithHTTPClient (Some do)])) = Some do)
  /\ httpClient (NewClient rt endpoint (opts ++ [WithHTTPClient None]))
     = Some (DefaultClient rt).
Proof.
  assert (Hsome : forall os, is_Some (httpClient (NewClient rt endpoint os))).
  { intros os. unfold NewClient. cbv zeta.
    destruct (httpClient (fold_left _ os _)) as [do|] eqn:Hdo.
    - rewrite Hdo. by eexists.
    - by eexists. }
  split; [apply Hsome|]. split; [|split].
  - intros T U rt' ctx req resp Hpanic. apply Run_Panic in Hpanic.
    destruct (Hsome opts) as [do Hdo]. congruence.
  - intros do. unfold NewClient. cbv zeta. by rewrite fold_left_app.
  - unfold NewClient. cbv zeta. by rewrite fold_left_app.
Qed.

Section Canonical.
Import HTTPHeader.

Lemma toUpper_idem (c : ascii) : toUpper (toUpper c) = toUpper c.
Proof. by destruct c as [[] [] [] [] [] [] [] []]. Qed.

Lemma toLower_idem (c : ascii) : toLower (toLower c) = toLower c.
Proof. by destruct c as [[] [] [] [] [] [] [] []]. Qed.

Lemma valid_toUpper (c : ascii) :
  validHeaderFieldByte (toUpper c) = validHeaderFieldByte c.
Proof. by destruct c as [[] [] [] [] [] [] [] []]. Qed.

Lemma valid_toLower (c : ascii) :
  validHeaderFieldByte (toLower c) = validHeaderFieldByte c.
Proof. by destruct c as [[] [] [] [] [] [] [] []]. Qed.

Lemma canonical_idem (upper : bool) (s : string) :
  canonical upper (canonical upper s) = canonical upper s.
Proof.
  revert upper. induction s as [|c s IH]; intros upper; [done|].
  cbn [canonical].
  assert (Hc : (if upper then toUpper (if upper then toUpper c else toLower c)
                else toLower (if upper then toUpper c else toLower c))
               = (if upper then toUpper c else toLower c)).
  { destruct upper; [apply toUpper_idem|apply toLower_idem]. }
  rewrite Hc. f_equal. apply IH.
Qed.

Lemma canonical_valid (upper : bool) (s : string) :
  forallb validHeaderFieldByte (list_ascii_of_string (canonical upper s))
  = forallb validHeaderFieldByte (list_ascii_of_string s).
Proof.
  revert upper. induction s as [|c s IH]; intros upper; [done|].
  cbn [canonical list_ascii_of_string forallb]. rewrite IH. f_equal.
  destruct upper; [apply valid_toUpper|apply valid_toLower].
Qed.

(** The canonical form of a header name is in canonical form. *)
Lemma CanonicalMIMEHeaderKey_idem (s : string) :
  CanonicalMIMEHeaderKey (CanonicalMIMEHeaderKey s) = CanonicalMIMEHeaderKey s.
Proof.
  unfold CanonicalMIMEHeaderKey at 2.
  destruct (forallb validHeaderFieldByte (list_ascii_of_string s)) eqn:Hv.
  - unfold CanonicalMIMEHeaderKey. by rewrite canonical_valid, Hv, canonical_idem.
  - unfold CanonicalMIMEHeaderKey. by rewrite Hv.
Qed.

Lemma contribution_canonical (K : string) (entries : list (string * list string)) :
  contribution K entries <> [] -> CanonicalMIMEHeaderKey K = K.
Proof.
  induction entries as [|[k vs] entries IH]; [done|].
  rewrite contribution_cons.
  destruct (decide (CanonicalMIMEHeaderKey k = K)) as [<-|_].
  - intros _. apply CanonicalMIMEHeaderKey_idem.
  - exact IH.
Qed.

Lemma canonicalNames_addEntries (entries : list (string * list string))
    (h : http_Header) :
  canonicalNames h -> canonicalNames (addEntries entries h).
Proof.
  intros Hh K. rewrite lookup_addEntries.
  destruct (decide (contribution K entries = [])) as [_|Hne]; [apply Hh|].
  intros _. by apply (contribution_canonical K entries).
Qed.

Lemma canonicalNames_defaultHeader : canonicalNames defaultHeader.
Proof.
  intros k. unfold defaultHeader, Set_. rewrite !lookup_insert.
  repeat case_decide; subst; try done. rewrite lookup_empty. by intros [? [=]].
Qed.

Lemma canonicalNames_oneSpelling (h : http_Header) (k : string) :
  canonicalNames h -> is_Some (h !! k) -> oneSpelling k h.
Proof.
  intros Hh Hk k' Hk' Heq. rewrite (Hh k Hk), (Hh k' Hk') in Heq. exact Heq.
Qed.

Lemma addEntries_app (front back : list (string * list string)) (h : http_Header) :
  addEntries (front ++ back) h = addEntries back (addEntries front h).
Proof. unfold addEntries. apply fold_left_app. Qed.

End Canonical.

(** The client that the options of the package build, field by field: the
    options of one kind do not touch what the options of another kind
    set. *)
Lemma fold_clientOptions (rt : Runtime) (os : list clientOption) (c : Client) :
  fold_left (fun c optFn => optFn c) (clientOptionFn rt <$> os) c
  = mkClient (Endpoint c)
      (fold_left (fun acc o => match o with OptHTTPClient h => h | _ => acc end)
         os (httpClient c))
      (HTTPHeader.addEntries (headerEntries rt os) (Header c))
      (closeReq c || closes os)
      (InspectRun c).
Proof.
  revert c. induction os as [|o os IH]; intros c.
  - cbn. rewrite orb_false_r. by destruct c.
  - cbn [fmap list_fmap fold_left]. rewrite IH.
    destruct o as [h|h|]; cbn.
    + reflexivity.
    + unfold headerEntries. cbn [flat_map]. fold (headerEntries rt os).
      by rewrite addEntries_app.
    + by rewrite orb_true_r.
Qed.

(** [NewClient] with options of the package: the HTTP client is the one
    of the last [WithHTTPClient], the default one if that is nil or missing;
    the header set is the default set to which the entries of every
    [WithHeaders] have been added in order; the body is closed at once if
    some option says so; there is no snapshot.  So the header set keeps the
    default [Content-Type] and [Accept] values in first place, whatever has
    been added, and holds canonical names only, hence every header under one
    spelling. *)
Theorem NewClient_with_package_options (rt : Runtime) (endpoint : string)
    (os : list clientOption) :
  let c := NewClient rt endpoint (clientOptionFn rt <$> os) in
  c = mkClient endpoint
        (Some (default (DefaultClient rt) (lastHTTPClient os)))
        (HTTPHeader.addEntries (headerEntries rt os) defaultHeader)
        (closes os) None
  /\ (forall K : string,
        Header c !! K
        = if decide (contribution K (headerEntries rt os) = [])
          then defaultHeader !! K
          else Some (default [] (defaultHeader !! K) ++ contribution K (headerEntries rt os)))
  /\ (exists more : list string,
        Header c !! "Content-Type" = Some ("application/json; charset=utf-8" :: more))
  /\ (exists more : list string,
        Header c !! "Accept" = Some ("application/json; charset=utf-8" :: more))
  /\ canonicalNames (Header c)
  /\ (forall k : string, is_Some (Header c !! k) -> oneSpelling k (Header c)).
Proof.
  cbv zeta.
  assert (Hc : NewClient rt endpoint (clientOptionFn rt <$> os)
               = mkClient endpoint
                   (Some (default (DefaultClient rt) (lastHTTPClient os)))
                   (HTTPHeader.addEntries (headerEntries rt os) defaultHeader)
                   (closes os) None).
  { unfold NewClient. cbv zeta. rewrite fold_clientOptions.
    cbn [httpClient Endpoint Header closeReq InspectRun setHeader orb].
    fold defaultHeader. fold (lastHTTPClient os).
    by destruct (lastHTTPClient os). }
  rewrite Hc. cbn [Header].
  assert (Hlookup : forall K : string,
            HTTPHeader.addEntries (headerEntries rt os) defaultHeader !! K
            = if decide (contribution K (headerEntries rt os) = [])
              then defaultHeader !! K
              else Some (default [] (defaultHeader !! K)
                         ++ contribution K (headerEntries rt os))).
  { intros K. apply lookup_addEntries. }
  assert (Hnames : canonicalNames
                     (HTTPHeader.addEntries (headerEntries rt os) defaultHeader)).
  { apply canonicalNames_addEntries, canonicalNames_defaultHeader. }
  split; [reflexivity|]. split; [exact Hlookup|]. split; [|split; [|split]].
  - rewrite Hlookup. destruct (decide _) as [_|_]; by eexists.
  - rewrite Hlookup. destruct (decide _) as [_|_]; by eexists.
  - exact Hnames.
  - intros k Hk. by apply canonicalNames_oneSpelling.
Qed.

(** ** Building a request *)

Lemma fold_requestOptions (os : list requestOption) (r : Request) :
  fold_left (fun req optFn => optFn req) (requestOptionFn <$> os) r
  = mkRequest (q r)
      (fold_left (fun acc o => match o with OptVars v => v | _ => acc end) os (vars r))
      (fold_left
         (fun acc o =>
            match o with
            | OptOperationName s => if String.eqb s EmptyString then acc else Some s
            | _ => acc
            end) os (opName r))
      (reqHeader r).
Proof.
  revert r. induction os as [|o os IH]; intros r; [by destruct r|].
  cbn [fmap list_fmap fold_left]. rewrite IH. destruct o as [v|s]; cbn; [done|].
  unfold WithOperationName. by destruct (String.eqb s EmptyString).
Qed.

Lemma fold_operationName_Some (os : list requestOption) (s : string) :
  is_Some
    (fold_left
       (fun acc o =>
          match o with
          | OptOperationName s => if String.eqb s EmptyString then acc else Some s
          | _ => acc
          end) os (Some s)).
Proof.
  revert s. induction os as [|[v|s'] os IH]; intros s; cbn; [by eexists|apply IH|].
  destruct (String.eqb s' EmptyString); apply IH.
Qed.

(** [NewRequest] with options of the package: the query is the one given,
    the header set is empty, the variables are those of the last [WithVars]
    and the operation name is the last one given that is not empty.  So an
    operation name, once given, cannot be taken away by a later option; and
    the method [Vars] does what the option [WithVars] does, a nil map
    included: the map it makes for a request without variables is replaced at
    once. *)
Theorem NewRequest_with_package_options (query : string) (os : list requestOption) :
  NewRequest query (requestOptionFn <$> os)
  = mkRequest query (lastVars os) (lastOperationName os) ∅
  /\ (forall (front back : list requestOption) (s : string),
        os = front ++ OptOperationName s :: back -> s <> EmptyString ->
        is_Some (opName (NewRequest query (requestOptionFn <$> os))))
  /\ (forall (v : option gomap) (r : Request), Vars v r = WithVars v r).
Proof.
  assert (Hform : forall os', NewRequest query (requestOptionFn <$> os')
                              = mkRequest query (lastVars os') (lastOperationName os') ∅).
  { intros os'. unfold NewRequest. cbv zeta. by rewrite fold_requestOptions. }
  split; [apply Hform|]. split.
  - intros front back s -> Hs. rewrite Hform. cbn [opName].
    unfold lastOperationName. rewrite fold_left_app. cbn [fold_left].
    destruct (String.eqb_spec s EmptyString) as [->|_]; [done|].
    apply fold_operationName_Some.
  - intros v r. unfold Vars, WithVars. by destruct (vars r), r.
Qed.

Lemma NewRequest_with_package_options_witness :
  is_Some (opName (NewRequest "query {}"
                     (requestOptionFn
                        <$> [OptOperationName "name"; OptVars None;
                             OptOperationName EmptyString]))).
Proof.
  apply (proj1 (proj2 (NewRequest_with_package_options "query {}"
                         [OptOperationName "name"; OptVars None;
                          OptOperationName EmptyString]))
           [] [OptVars None; OptOperationName EmptyString] "name");
    [reflexivity|discriminate].
Defined.

(** ** What a call leaves alone *)

(** A call of [Run] changes nothing of its client but the snapshot: the
    endpoint, the HTTP client, the header set and the close flag are as they
    were; and it changes nothing of its request.  So a client and a request
    can be used for any number of calls. *)
Theorem Run_changes_only_InspectRun {T : Type} `{Unmarshal T} (rt : Runtime)
    (ctx : Context) (c : Client) (req : Request) (resp : option T) :
  let R := Run rt ctx c req resp in
  Endpoint (client R) = Endpoint c
  /\ httpClient (client R) = httpClient c
  /\ Header (client R) = Header c
  /\ closeReq (client R) = closeReq c
  /\ request R = req.
Proof.
  cbv zeta. rewrite Run_client, Run_request. by repeat split.
Qed.

(** ** Path and extensions of a GraphQL error *)

Section PathAndExtensions.

Lemma lookup_store (k : string) (v : govalue) (m : gomap) :
  GoMap.lookup k (GoMap.store k v m) = Some v.
Proof.
  induction m as [|[k' v'] m IH]; cbn.
  - by rewrite String.eqb_refl.
  - destruct (String.compare k k') eqn:Hcmp; cbn.
    + by rewrite String.eqb_refl.
    + by rewrite String.eqb_refl.
    + destruct (String.eqb_spec k k') as [->|_]; [|exact IH].
      pose proof (String.compare_antisym k' k') as Ha.
      rewrite Hcmp in Ha. discriminate.
Qed.

Lemma lookup_store_ne (k k0 : string) (v : govalue) (m : gomap) :
  k0 <> k -> GoMap.lookup k0 (GoMap.store k v m) = GoMap.lookup k0 m.
Proof.
  intros Hne. induction m as [|[k' v'] m IH]; cbn.
  - by destruct (String.eqb_spec k0 k).
  - destruct (String.compare k k') eqn:Hcmp; cbn.
    + apply String.compare_eq_iff in Hcmp as <-.
      by destruct (String.eqb_spec k0 k).
    + by destruct (String.eqb_spec k0 k).
    + destruct (String.eqb k0 k'); [done|exact IH].
Qed.

Lemma lookup_storeEntries_other (k : string) (members : list (string * json))
    (m : gomap) :
  k ∉ members.*1 ->
  GoMap.lookup k (storeEntries members m).1 = GoMap.lookup k m.
Proof.
  revert m. induction members as [|[k' j] members IH]; intros m Hk; [done|].
  cbn [storeEntries]. rewrite fmap_cons in Hk. cbn in Hk.
  apply not_elem_of_cons in Hk as [Hne Hk].
  destruct (storeInterface j GNil) as [v e1]. specialize (IH (GoMap.store k' v m) Hk).
  destruct (storeEntries members _) as [m' e2]. cbn in *.
  by rewrite IH, lookup_store_ne.
Qed.

Lemma lookup_storeEntries (k : string) (j : json)
    (front back : list (string * json)) (m : gomap) :
  k ∉ back.*1 ->
  GoMap.lookup k (storeEntries (front ++ (k, j) :: back) m).1
  = Some (storeInterface j GNil).1.
Proof.
  revert m. induction front as [|[k' j'] front IH]; intros m Hk.
  - cbn [app storeEntries]. destruct (storeInterface j GNil) as [v e1].
    pose proof (lookup_storeEntries_other k back (GoMap.store k v m) Hk) as Hb.
    destruct (storeEntries back _) as [m' e2]. cbn in *.
    by rewrite Hb, lookup_store.
  - cbn [app storeEntries]. destruct (storeInterface j' GNil) as [v e1].
    specialize (IH (GoMap.store k' v m) Hk).
    destruct (storeEntries (front ++ (k, j) :: back) _) as [m' e2]. exact IH.
Qed.

Lemma storeInterface_segment (j : json) (old : govalue) :
  isSegment j -> storeInterface j old = (segmentValue j, None).
Proof.
  destruct j as [| |n|s| |]; try done. cbn. by intros ->.
Qed.

Lemma decodeItems_segments (items : list json) (old : list govalue) :
  Forall isSegment items ->
  decodeItems GNil storeInterface items old = (segmentValue <$> items, None).
Proof.
  intros Hall. revert old. induction Hall as [|j items Hj _ IH]; intros old; [done|].
  cbn [decodeItems]. by rewrite (storeInterface_segment j _ Hj), IH.
Qed.

End PathAndExtensions.

(** The path of an error record is decoded segment by segment, a string as
    a string and a number as a float64, never as an integer; and the
    extensions are decoded into a map in which every key of the object is
    found with the value of its last member. *)
Theorem path_and_extensions_decoded (front back : list (string * json))
    (g : GraphQLError) :
  (forall items : list json,
      Forall isSegment items ->
      noMemberFor graphQLErrorTags 2 back ->
      elements (Path (decodeGraphQLError
                        (JObj (front ++ ("path", JArr items) :: back)) g).1)
      = segmentValue <$> items)
  /\ (forall (xfront xback : list (string * json)) (k : string) (j : json),
        noMemberFor graphQLErrorTags 3 back ->
        k ∉ xback.*1 ->
        exists m : gomap,
          Extensions (decodeGraphQLError
                        (JObj (front ++ ("extensions", JObj (xfront ++ (k, j) :: xback))
                                 :: back)) g).1
          = Some m
          /\ GoMap.lookup k m = Some (storeInterface j GNil).1).
Proof.
  unfold decodeGraphQLError, decodeStruct. split.
  - intros items Hitems Hback. rewrite decodeMembers_app.
    destruct (decodeMembers _ _ front g) as [g1 e1]. cbn [decodeMembers].
    change (matchField graphQLErrorTags "path") with (Some 2%nat).
    cbn [storeGraphQLErrorField]. unfold decodeSlice.
    destruct items as [|j items].
    + pose proof (decodeMembers_field Path 2 back
                    (mkGraphQLError (Message g1) (Locations g1) (Slice [] []) (Extensions g1))
                    storeGraphQLErrorField_Path Hback) as Hp.
      destruct (decodeMembers _ _ back _) as [g2 e2]. cbn in *. by rewrite Hp.
    + rewrite (decodeItems_segments (j :: items) _ Hitems).
      pose proof (decodeMembers_field Path 2 back
                    (mkGraphQLError (Message g1) (Locations g1)
                       (Slice (segmentValue <$> j :: items)
                          (skipn (length (j :: items)) (backing (Path g1))))
                       (Extensions g1))
                    storeGraphQLErrorField_Path Hback) as Hp.
      destruct (decodeMembers _ _ back _) as [g2 e2]. cbn in *. by rewrite Hp.
  - intros xfront xback k j Hback Hk. rewrite decodeMembers_app.
    destruct (decodeMembers _ _ front g) as [g1 e1]. cbn [decodeMembers].
    change (matchField graphQLErrorTags "extensions") with (Some 3%nat).
    cbn [storeGraphQLErrorField decodeMap].
    pose proof (lookup_storeEntries k j xfront xback (default [] (Extensions g1)) Hk)
      as Hl.
    destruct (storeEntries (xfront ++ (k, j) :: xback) _) as [m e2].
    pose proof (decodeMembers_field Extensions 3 back
                  (mkGraphQLError (Message g1) (Locations g1) (Path g1) (Some m))
                  storeGraphQLErrorField_Extensions Hback) as Hx.
    destruct (decodeMembers _ _ back _) as [g2 e3]. cbn in *.
    exists m. by rewrite Hx.
Qed.

Lemma path_and_extensions_decoded_witness :
  let record :=
    JObj [("message", JStr "oops");
          ("path", JArr [JStr "some"; JNum (NInt 1)]);
          ("extensions", JObj [("code", JStr "failcode")])] in
  elements (Path (decodeGraphQLError record zeroGraphQLError).1)
  = [GString "some"; GFloat64 (NInt 1)]
  /\ exists m : gomap,
       Extensions (decodeGraphQLError record zeroGraphQLError).1 = Some m
       /\ GoMap.lookup "code" m = Some (GString "failcode").
Proof.
  cbv zeta. split.
  - apply (proj1 (path_and_extensions_decoded [("message", JStr "oops")]
                    [("extensions", JObj [("code", JStr "failcode")])]
                    zeroGraphQLError) [JStr "some"; JNum (NInt 1)]).
    + repeat constructor.
    + repeat constructor. discriminate.
  - apply (proj2 (path_and_extensions_decoded
                    [("message", JStr "oops");
                     ("path", JArr [JStr "some"; JNum (NInt 1)])]
                    [] zeroGraphQLError) [] [] "code" (JStr "failcode")).
    + constructor.
    + apply not_elem_of_nil.
Defined.
